(** * posse.py: syndication of Hugo posts, embedded and checked

    A shallow embedding of [src/posse.py].  Python [str] values are
    modelled by [string], one character per code point (code points
    below 256); Python [int] by [Z]; exceptions by an error type;
    logging, printing and the files on disk by an explicit world that
    every effectful function threads through.  The host is a POSIX
    one: paths use [/], and a file opened in text mode is read with
    universal newlines and written with [\n] left as it is. *)

From Stdlib Require Import ZArith String Ascii List Bool Lia DecimalString.
From stdpp Require Import base strings list gmap.

Open Scope string_scope.
Open Scope Z_scope.
Open Scope list_scope.

Set Warnings "-clear-no-such-hyp".

(** ** Python strings and lists *)

Module Py.

Definition nl : string := String (ascii_of_nat 10) "".

Definition len (s : string) : Z := Z.of_nat (String.length s).

Fixpoint take (n : nat) (s : string) : string :=
  match n, s with
  | S n', String c s' => String c (take n' s')
  | _, _ => ""
  end.

Fixpoint drop (n : nat) (s : string) : string :=
  match n, s with
  | S n', String _ s' => drop n' s'
  | _, _ => s
  end.

(** Slice bounds: a negative bound counts from the end, and every
    bound is clipped to [0, n]. *)
Definition clamp (n i : Z) : nat :=
  if i <? 0 then Z.to_nat (Z.max 0 (i + n)) else Z.to_nat (Z.min i n).

(** [s[lo:hi]], [s[:hi]] and [s[lo:]]. *)
Definition slice (s : string) (lo hi : Z) : string :=
  drop (clamp (len s) lo) (take (clamp (len s) hi) s).

Definition slice_to (s : string) (hi : Z) : string :=
  take (clamp (len s) hi) s.

Definition slice_from (s : string) (lo : Z) : string :=
  drop (clamp (len s) lo) s.

(** [l[lo:hi]] on lists. *)
Definition list_slice {A} (l : list A) (lo hi : Z) : list A :=
  let n := Z.of_nat (length l) in
  List.skipn (clamp n lo) (List.firstn (clamp n hi) l).

Definition startswith (s p : string) : bool := String.prefix p s.

Definition endswith (s p : string) : bool :=
  (String.length p <=? String.length s)%nat
  && String.eqb (drop (String.length s - String.length p) s) p.

(** [find_at sub s i]: lowest position of [sub] in [s], where [s] is
    the text that starts at absolute position [i]; [-1] when absent. *)
Fixpoint find_at (sub s : string) (i : nat) : Z :=
  if String.prefix sub s then Z.of_nat i
  else match s with
       | "" => -1
       | String _ s' => find_at sub s' (S i)
       end.

(** [s.find(sub, start)] for [start >= 0]. *)
Definition find (s sub : string) (start : nat) : Z :=
  if (start <=? String.length s)%nat then find_at sub (drop start s) start
  else -1.

(** [sub in s] on strings. *)
Definition contains (s sub : string) : bool := 0 <=? find s sub 0.

(** [s.rfind(c)] for a one-character [c]. *)
Fixpoint rfind_at (c : ascii) (s : string) (i : nat) (acc : Z) : Z :=
  match s with
  | "" => acc
  | String d s' =>
      rfind_at c s' (S i) (if Ascii.eqb d c then Z.of_nat i else acc)
  end.

Definition rfind (s : string) (c : ascii) : Z := rfind_at c s 0 (-1).

(** [s.split(sep)] for a one-character separator. *)
Fixpoint split (sep : ascii) (s : string) : list string :=
  match s with
  | "" => [""]
  | String c s' =>
      if Ascii.eqb c sep then "" :: split sep s'
      else match split sep s' with
           | [] => [String c ""]
           | p :: ps => String c p :: ps
           end
  end.

(** [sep.join(l)] on a list of strings. *)
Definition join (sep : string) (l : list string) : string :=
  String.concat sep l.

(** [s.replace(a, b)] for one-character [a] and [b]. *)
Fixpoint replace (a b : ascii) (s : string) : string :=
  match s with
  | "" => ""
  | String c s' => String (if Ascii.eqb c a then b else c) (replace a b s')
  end.

(** [str.isspace] on one code point below 256. *)
Definition is_space (c : ascii) : bool :=
  let n := N_of_ascii c in
  ((9 <=? n) && (n <=? 13) || (28 <=? n) && (n <=? 32)
   || (n =? 133) || (n =? 160))%N.

Fixpoint lstrip_by (p : ascii → bool) (s : string) : string :=
  match s with
  | "" => ""
  | String c s' => if p c then lstrip_by p s' else s
  end.

Fixpoint rstrip_by (p : ascii → bool) (s : string) : string :=
  match s with
  | "" => ""
  | String c s' =>
      match rstrip_by p s' with
      | "" => if p c then "" else String c ""
      | r => String c r
      end
  end.

(** [s.strip()] and [s.rstrip("/")]. *)
Definition strip (s : string) : string :=
  lstrip_by is_space (rstrip_by is_space s).

Definition rstrip_slash (s : string) : string :=
  rstrip_by (fun c => Ascii.eqb c "/") s.

(** What a file opened with [open(path, "r")] gives for the stored
    text [s]: universal newlines turn [\r\n] and a lone [\r] into
    [\n]. *)
Fixpoint universal_newlines (s : string) : string :=
  match s with
  | "" => ""
  | String c r =>
      if Ascii.eqb c (ascii_of_nat 13) then
        String (ascii_of_nat 10)
          match r with
          | "" => ""
          | String d r' =>
              if Ascii.eqb d (ascii_of_nat 10) then universal_newlines r'
              else universal_newlines r
          end
      else String c (universal_newlines r)
  end.

(** [f.readlines()] on the text the file object gives, that is on
    [universal_newlines] of the stored text: a line ends at [\n] and
    nowhere else, every line keeps its newline, the last one may lack
    it. *)
Fixpoint readlines (s : string) : list string :=
  match s with
  | "" => []
  | String c s' =>
      if Ascii.eqb c (ascii_of_nat 10) then String c "" :: readlines s'
      else match readlines s' with
           | [] => [String c ""]
           | l :: ls => String c l :: ls
           end
  end.

(** [l.index(x)]: position of the first [x]; absent is [ValueError]. *)
Fixpoint index_of (x : string) (l : list string) : option nat :=
  match l with
  | [] => None
  | y :: l' => if String.eqb y x then Some 0%nat
               else option_map S (index_of x l')
  end.

End Py.

(** ** Values, exceptions and results *)

(** The values a front-matter parser can return.  [VOther] stands for
    a value of any further type (float, date), known by its truth
    value only. *)
#[warning="-register-all"] Inductive pyval : Type :=
| VNone
| VBool (b : bool)
| VInt (z : Z)
| VStr (s : string)
| VList (l : list pyval)
| VDict (d : list (string * pyval))
| VOther (truth : bool).

Abbreviation dict := (list (string * pyval)).

Inductive exn : Type :=
| NameError (name : string)
| IndexError
| TypeError
| AttributeError
| OSError
| DecodeError
| OtherError.

Inductive result (A : Type) : Type :=
| Ok (a : A)
| Raise (e : exn).
Arguments Ok {A} a.
Arguments Raise {A} e.

#[global] Instance result_ret : MRet result := λ A a, Ok a.

#[global] Instance result_bind : MBind result := λ A B k r,
  match r with
  | Ok a => k a
  | Raise e => Raise e
  end.

(** Truth value of [v] in a condition. *)
Definition truthy (v : pyval) : bool :=
  match v with
  | VNone => false
  | VBool b => b
  | VInt z => negb (z =? 0)
  | VStr s => negb (String.eqb s "")
  | VList l => match l with [] => false | _ => true end
  | VDict d => match d with [] => false | _ => true end
  | VOther t => t
  end.

Definition is_str (v : pyval) (s : string) : bool :=
  match v with
  | VStr s' => String.eqb s' s
  | _ => false
  end.

(** [d.get(k)] and [d.get(k, dflt)]. *)
Fixpoint dict_lookup (d : dict) (k : string) : option pyval :=
  match d with
  | [] => None
  | (k', v) :: d' => if String.eqb k' k then Some v else dict_lookup d' k
  end.

Definition dict_get (d : dict) (k : string) (dflt : pyval) : pyval :=
  match dict_lookup d k with
  | Some v => v
  | None => dflt
  end.

Definition dict_has (d : dict) (k : string) : bool :=
  match dict_lookup d k with
  | Some _ => true
  | None => false
  end.

(** [x in v] for a string [x]: key test on a dict, substring test on
    a string, element test on a list, [TypeError] on anything else. *)
Definition py_in (x : string) (v : pyval) : result bool :=
  match v with
  | VDict d => Ok (dict_has d x)
  | VStr s => Ok (Py.contains s x)
  | VList l => Ok (existsb (fun e => is_str e x) l)
  | _ => Raise TypeError
  end.

(** [v.get(k, dflt)]: only a dict has the method. *)
Definition py_get (v : pyval) (k : string) (dflt : pyval) : result pyval :=
  match v with
  | VDict d => Ok (dict_get d k dflt)
  | _ => Raise AttributeError
  end.

(** [sep.join(l)] where [l] may hold values that are not strings. *)
Fixpoint all_str (l : list pyval) : result (list string) :=
  match l with
  | [] => Ok []
  | VStr s :: l' => (ss ← all_str l'; Ok (s :: ss))
  | _ :: _ => Raise TypeError
  end.

Definition py_join (sep : string) (l : list pyval) : result string :=
  (ss ← all_str l; Ok (Py.join sep ss)).

(** [l[-1] = v]. *)
Definition set_last (l : list pyval) (v : pyval) : result (list pyval) :=
  match l with
  | [] => Raise IndexError
  | _ => Ok (removelast l ++ [v])
  end.

(** ** [os.path] on a POSIX host *)

Module OsPath.

(** [os.path.basename(p)]: the text after the last slash. *)
Definition basename (p : string) : string :=
  Py.slice_from p (Py.rfind p "/" + 1).

(** [os.path.splitext(p)[0]]: [p] without its extension; leading dots
    of the last component do not start an extension. *)
Definition splitext_root (p : string) : string :=
  let sepIndex := Py.rfind p "/" in
  let dotIndex := Py.rfind p "." in
  if (dotIndex >? sepIndex)
     && existsb (fun c => negb (Ascii.eqb c "."))
          (list_ascii_of_string (Py.slice p (sepIndex + 1) dotIndex))
  then Py.slice_to p dotIndex
  else p.

(** One round of the loop of [os.path.normpath] over the components. *)
Definition norm_step (initial_slashes : nat) (new_comps : list string)
    (comp : string) : list string :=
  if String.eqb comp "" || String.eqb comp "." then new_comps
  else if negb (String.eqb comp "..")
          || ((initial_slashes =? 0)%nat
              && match new_comps with [] => true | _ => false end)
          || match new_comps with
             | [] => false
             | _ => String.eqb (List.last new_comps "") ".."
             end
       then new_comps ++ [comp]
       else removelast new_comps.

(** [os.path.normpath(path)]. *)
Definition normpath (path : string) : string :=
  if String.eqb path "" then "."
  else
    let initial_slashes :=
      if Py.startswith path "/" then
        if Py.startswith path "//" && negb (Py.startswith path "///")
        then 2%nat else 1%nat
      else 0%nat in
    let comps := Py.split "/" path in
    let new_comps := fold_left (norm_step initial_slashes) comps [] in
    let joined :=
      String.concat "" (repeat "/" initial_slashes)
      +:+ Py.join "/" new_comps in
    if String.eqb joined "" then "." else joined.

End OsPath.

(** ** The module namespace and the host *)

(** What a module-level name can be bound to: [None], an [int], a
    [str], or an object (module, function, class) known by the text
    [str()] gives for it. *)
Inductive gval : Type :=
| GNone
| GInt (z : Z)
| GStr (s : string)
| GObj (repr : string).

Abbreviation namespace := (list (string * gval)).

(** Everything the program takes from outside itself. *)
Record host : Type := {
  (** [os.getenv], after [load_dotenv()] *)
  getenv : string → option string;
  (** [str()] of the object a module-level [import] or [def] binds *)
  describe : string → string;
  (** [tomllib.loads] and [yaml.safe_load] *)
  toml_loads : string → result pyval;
  yaml_safe_load : string → result pyval;
  (** [requests.get(url, ...)]: the status code, or [None] for a
      [RequestException] *)
  http_get : string → option Z;
  (** [client.send_post] and [client.status_post]: [true] when the
      call returns, [false] when it raises *)
  send_post : string → bool;
  status_post : string → bool
}.

Definition g_of_env (o : option string) : gval :=
  match o with
  | Some s => GStr s
  | None => GNone
  end.

(** The names bound at module level once [posse.py] is loaded, in the
    order the file binds them. *)
Definition module_globals (h : host) : namespace :=
  let obj name := (name, GObj (describe h name)) in
  [ obj "__name__"; obj "__doc__"; obj "__package__"; obj "__loader__";
    obj "__spec__"; obj "__file__"; obj "__builtins__";
    obj "warnings"; obj "os"; obj "sys"; obj "tomllib"; obj "yaml";
    obj "argparse"; obj "logging"; obj "requests";
    obj "load_dotenv"; obj "Client"; obj "models"; obj "Mastodon";
    ("BASE_URL", g_of_env (getenv h "BASE_URL"));
    ("BSKY_HANDLE", g_of_env (getenv h "BSKY_HANDLE"));
    ("BSKY_PASSWORD", g_of_env (getenv h "BSKY_PASSWORD"));
    ("BSKY_CHAR_LIMIT", GInt 290);
    ("MASTODON_ACCESS_TOKEN", g_of_env (getenv h "MASTODON_ACCESS_TOKEN"));
    ("MASTODON_API_BASE", g_of_env (getenv h "MASTODON_API_BASE"));
    ("MASTODON_CHAR_LIMIT", GInt 490);
    obj "parse_frontmatter"; obj "get_post_url";
    obj "verify_url_accessible"; obj "truncate_text";
    obj "syndicate_to_bluesky"; obj "syndicate_to_mastodon";
    obj "mark_syndicated"; obj "main" ].

(** The names of the [builtins] module. *)
Definition builtin_names : list string :=
  [ "abs"; "aiter"; "all"; "anext"; "any"; "ascii"; "bin"; "bool";
    "breakpoint"; "bytearray"; "bytes"; "callable"; "chr"; "classmethod";
    "compile"; "complex"; "delattr"; "dict"; "dir"; "divmod"; "enumerate";
    "eval"; "exec"; "filter"; "float"; "format"; "frozenset"; "getattr";
    "globals"; "hasattr"; "hash"; "help"; "hex"; "id"; "input"; "int";
    "isinstance"; "issubclass"; "iter"; "len"; "list"; "locals"; "map";
    "max"; "memoryview"; "min"; "next"; "object"; "oct"; "open"; "ord";
    "pow"; "print"; "property"; "range"; "repr"; "reversed"; "round";
    "set"; "setattr"; "slice"; "sorted"; "staticmethod"; "str"; "sum";
    "super"; "tuple"; "type"; "vars"; "zip"; "__import__";
    "Ellipsis"; "NotImplemented";
    "copyright"; "credits"; "license"; "exit"; "quit";
    "BaseException"; "BaseExceptionGroup"; "Exception"; "ExceptionGroup";
    "ArithmeticError"; "AssertionError"; "AttributeError";
    "BlockingIOError"; "BrokenPipeError"; "BufferError"; "BytesWarning";
    "ChildProcessError"; "ConnectionAbortedError"; "ConnectionError";
    "ConnectionRefusedError"; "ConnectionResetError";
    "DeprecationWarning"; "EOFError"; "EncodingWarning";
    "EnvironmentError"; "FileExistsError"; "FileNotFoundError";
    "FloatingPointError"; "FutureWarning"; "GeneratorExit"; "IOError";
    "ImportError"; "ImportWarning"; "IndentationError"; "IndexError";
    "InterruptedError"; "IsADirectoryError"; "KeyError";
    "KeyboardInterrupt"; "LookupError"; "MemoryError";
    "ModuleNotFoundError"; "NameError"; "NotADirectoryError";
    "NotImplementedError"; "OSError"; "OverflowError";
    "PendingDeprecationWarning"; "PermissionError"; "ProcessLookupError";
    "RecursionError"; "ReferenceError"; "ResourceWarning"; "RuntimeError";
    "RuntimeWarning"; "StopAsyncIteration"; "StopIteration";
    "SyntaxError"; "SyntaxWarning"; "SystemError"; "SystemExit";
    "TabError"; "TimeoutError"; "TypeError"; "UnboundLocalError";
    "UnicodeDecodeError"; "UnicodeEncodeError"; "UnicodeError";
    "UnicodeTranslateError"; "UnicodeWarning"; "UserWarning";
    "ValueError"; "Warning"; "ZeroDivisionError" ].

(** What a read of a global name sees inside the module's functions:
    the module namespace first, then the builtins. *)
Definition global_scope (h : host) : namespace :=
  module_globals h
  ++ List.map (fun name => (name, GObj (describe h name))) builtin_names.

Fixpoint ns_lookup (g : namespace) (name : string) : option gval :=
  match g with
  | [] => None
  | (n, v) :: g' => if String.eqb n name then Some v else ns_lookup g' name
  end.

(** Reading a name that the function does not assign: the value the
    scope binds it to, else [NameError]. *)
Definition load_global (g : namespace) (name : string) : result gval :=
  match ns_lookup g name with
  | Some v => Ok v
  | None => Raise (NameError name)
  end.

Definition g_truthy (v : gval) : bool :=
  match v with
  | GNone => false
  | GInt z => negb (z =? 0)
  | GStr s => negb (String.eqb s "")
  | GObj _ => true
  end.

(** [len(v)]. *)
Definition g_len (v : gval) : result Z :=
  match v with
  | GStr s => Ok (Py.len s)
  | _ => Raise TypeError
  end.

(** [str(v)], as a replacement field of an f-string applies it. *)
Definition g_str (v : gval) : string :=
  match v with
  | GNone => "None"
  | GInt z => NilZero.string_of_int (Z.to_int z)
  | GStr s => s
  | GObj r => r
  end.

(** [sep.join(l)]: every item must be a [str]. *)
Fixpoint g_all_str (l : list gval) : result (list string) :=
  match l with
  | [] => Ok []
  | GStr s :: l' => (ss ← g_all_str l'; Ok (s :: ss))
  | _ :: _ => Raise TypeError
  end.

Definition g_join (sep : string) (l : list gval) : result string :=
  (ss ← g_all_str l; Ok (Py.join sep ss)).

(** ** Content handling *)

(** [truncate_text(title, content, limit, suffix)], lines 93-115, run
    with [g] the scope of its global reads.  [title], [content] and [suffix] are
    strings and [limit] an integer, as the callers' contract has them;
    the name [forced_suffix] is not assigned in the function, so each
    use of it is a global read. *)
Definition truncate_text (g : namespace) (title content : string)
    (limit : Z) (suffix : string) : result string :=
  let suffix_padding := if negb (String.eqb suffix "") then 2 else 0 in
  let reserved_chars := Py.len title + 2 + Py.len suffix + suffix_padding in
  let available_chars := limit - reserved_chars in
  if available_chars <=? 0 then
    (fs ← load_global g "forced_suffix";
     n ← g_len fs;
     let head := Py.slice_to title (limit - n - 5) in
     fs' ← load_global g "forced_suffix";
     Ok (head +:+ "... " +:+ g_str fs'))
  else
    let final_content :=
      if negb (String.eqb content "") then
        if Py.len content >? available_chars
        then Py.slice_to content (available_chars - 3) +:+ "..."
        else content
      else "" in
    let parts := [GStr title] in
    let parts :=
      if negb (String.eqb final_content "")
      then parts ++ [GStr final_content] else parts in
    (fs ← load_global g "forced_suffix";
     parts' ← (if g_truthy fs
                then (fs' ← load_global g "forced_suffix";
                      Ok (parts ++ [fs']))
                else Ok parts);
     g_join (Py.nl +:+ Py.nl) parts').

(** [v.rstrip("/")]: only a [str] has the method. *)
Definition g_rstrip_slash (v : gval) : result string :=
  match v with
  | GStr s => Ok (Py.rstrip_slash s)
  | _ => Raise AttributeError
  end.

(** Lines 53-54: the site root, from [BASE_URL] or the default. *)
Definition site_root (g : namespace) : result string :=
  base_url ← load_global g "BASE_URL";
  g_rstrip_slash
    (if g_truthy base_url then base_url else GStr "https://example.com").

(** Lines 57-58: the segments of the normalised path. *)
Definition path_parts (filepath : string) : list string :=
  let path_norm := Py.replace "\" "/" (OsPath.normpath filepath) in
  Py.split "/" path_norm.

(** Lines 60-66: the segments after the first ["content"] one and
    before the last one, or [["posts"]] without a ["content"] segment. *)
Definition post_dirs (filepath : string) : list string :=
  match Py.index_of "content" (path_parts filepath) with
  | Some content_idx =>
      Py.list_slice (path_parts filepath) (Z.of_nat content_idx + 1) (-1)
  | None => ["posts"]
  end.

(** [get_post_url(filepath, frontmatter)], lines 48-82. *)
Definition get_post_url (g : namespace) (filepath : string)
    (frontmatter : pyval) : result string :=
  root ← site_root g;
  let dirs := List.map VStr (post_dirs filepath) in
  let filename := OsPath.basename filepath in
  if String.eqb filename "index.md" || String.eqb filename "_index.md" then
    slug ← py_get frontmatter "slug" VNone;
    dirs' ← (if truthy slug then set_last dirs slug else Ok dirs);
    url_path ← py_join "/" dirs';
    Ok (root +:+ "/" +:+ url_path +:+ "/")
  else
    slug ← py_get frontmatter "slug" VNone;
    let slug' :=
      if negb (truthy slug) then VStr (OsPath.splitext_root filename)
      else slug in
    url_path ← py_join "/" (dirs ++ [slug']);
    Ok (root +:+ "/" +:+ url_path +:+ "/").

(** ** The world: files, storage faults, and what the run emits *)

Inductive level : Type := INFO | WARNING | ERROR | CRITICAL.

(** The lines the program logs or prints, by kind and by the data
    they show. *)
Inductive message : Type :=
| ParsingError
| ConnectionFailed (url : string)
| BlueskyPosted (title : pyval)
| BlueskyFailed
| MastodonPosted (title : pyval)
| MastodonFailed
| UpdatedStatus (filepath : string)
| ErrorMarking
| Skipped (file : string)
| CouldNotRead (file : string)
| FoundPosts (n : nat)
| VerifyingUrl (url : string)
| Stopping (url : string)
| BlueskyDryRun (title : pyval) (url : string)
| MastodonDryRun (title : pyval) (url : string)
| WouldMark (name : string)
| PartialFailure (title : pyval).

(** The trace records every log line and printed line, and every call
    of [mark_syndicated]. *)
Inductive event : Type :=
| Log (lv : level) (m : message)
| Print (m : message)
| Call_mark_syndicated (filepath : string).

(** A fault the storage will answer the next rewrite with: opening the
    file for writing fails, or the write after [n] good ones fails. *)
Inductive io_fault : Type :=
| NoFault
| OpenFails
| WriteFails (n : nat).

(** [files] maps the path of each readable file to the text stored in
    it, decoded and with its line ends as stored; a path outside the
    map cannot be read. *)
Record world : Type := {
  files : gmap string string;
  fault : io_fault;
  trace : list event
}.

Definition with_event (w : world) (ev : event) : world :=
  {| files := files w; fault := fault w; trace := trace w ++ [ev] |}.

Definition with_files (w : world) (fs : gmap string string) (f : io_fault)
    : world :=
  {| files := fs; fault := f; trace := trace w |}.

Definition M (A : Type) : Type := world → result A * world.

#[global] Instance M_ret : MRet M := λ A a w, (Ok a, w).

#[global] Instance M_bind : MBind M := λ A B k m w,
  match m w with
  | (Ok a, w') => k a w'
  | (Raise e, w') => (Raise e, w')
  end.

Definition lift {A} (r : result A) : M A := λ w, (r, w).

Definition emit (ev : event) : M unit := λ w, (Ok tt, with_event w ev).

(** [try: body except Exception as e: handler(e)]. *)
Definition try_except {A} (body : M A) (handler : exn → M A) : M A := λ w,
  match body w with
  | (Ok a, w') => (Ok a, w')
  | (Raise e, w') => handler e w'
  end.

(** [open(path, "r")] and [f.read()]: the stored text, with its line
    ends translated. *)
Definition read_text (path : string) : M string := λ w,
  match files w !! path with
  | Some text => (Ok (Py.universal_newlines text), w)
  | None => (Raise OSError, w)
  end.

(** [open(path, "w")]: the file is emptied as soon as it is opened. *)
Definition open_w (path : string) : M unit := λ w,
  match fault w with
  | OpenFails => (Raise OSError, w)
  | _ => (Ok tt, with_files w (<[path := ""]> (files w)) (fault w))
  end.

(** [f.write(s)] on the file opened at [path]: [s] is stored as it
    is. *)
Definition f_write (path s : string) : M unit := λ w,
  let appended := <[path := default "" (files w !! path) +:+ s]> (files w) in
  match fault w with
  | WriteFails O => (Raise OSError, with_files w (files w) NoFault)
  | WriteFails (S n) => (Ok tt, with_files w appended (WriteFails n))
  | _ => (Ok tt, with_files w appended (fault w))
  end.

(** [parse_frontmatter(content)], lines 36-46. *)
Definition parse_frontmatter (h : host) (content : string) : M pyval :=
  try_except
    (if Py.startswith content "+++" then
       let end_ := Py.find content "+++" 3 in
       lift (toml_loads h (Py.slice content 3 end_))
     else if Py.startswith content "---" then
       let end_ := Py.find content "---" 3 in
       lift (yaml_safe_load h (Py.slice content 3 end_))
     else mret VNone)
    (λ e, emit (Log ERROR ParsingError);; mret VNone).

(** [verify_url_accessible(url)], lines 84-91. *)
Definition verify_url_accessible (h : host) (url : string) : M bool :=
  match http_get h url with
  | Some status_code => mret (status_code =? 200)
  | None => emit (Log ERROR (ConnectionFailed url));; mret false
  end.

(** ** Syndication *)

(** The call [truncate_text(title, text_content, limit)] of the two
    publishers, [suffix] left at its default.  With a title or an
    excerpt that is not a [str] the call raises as well ([TypeError]
    from [len], or the [NameError] of [truncate_text], by the value);
    the model reports that case as [OtherError]. *)
Definition call_truncate_text (g : namespace) (title text_content : pyval)
    (limit : Z) : result string :=
  match title, text_content with
  | VStr t, VStr c => truncate_text g t c limit ""
  | _, _ => Raise OtherError
  end.

Definition global_int (g : namespace) (name : string) : result Z :=
  v ← load_global g name;
  match v with
  | GInt z => Ok z
  | _ => Raise TypeError
  end.

(** [syndicate_to_bluesky(client, frontmatter, url)], lines 118-140;
    [client] tells whether a client object was passed. *)
Definition syndicate_to_bluesky (h : host) (client : bool)
    (frontmatter : pyval) (url : string) : M bool :=
  if negb client then mret false
  else
    title ← lift (py_get frontmatter "title" (VStr "New Post"));
    text_content ← lift (py_get frontmatter "microblog_content" (VStr ""));
    limit ← lift (global_int (global_scope h) "BSKY_CHAR_LIMIT");
    post_text ← lift (call_truncate_text (global_scope h)
                        title text_content limit);
    if send_post h post_text
    then emit (Log INFO (BlueskyPosted title));; mret true
    else emit (Log ERROR BlueskyFailed);; mret false.

(** [syndicate_to_mastodon(client, frontmatter, url)], lines 142-160. *)
Definition syndicate_to_mastodon (h : host) (client : bool)
    (frontmatter : pyval) (url : string) : M bool :=
  if negb client then mret false
  else
    title ← lift (py_get frontmatter "title" (VStr "New Post"));
    text_content ← lift (py_get frontmatter "microblog_content" (VStr ""));
    char_limit ← lift (global_int (global_scope h) "MASTODON_CHAR_LIMIT");
    let limit := char_limit - Py.len url - 2 in
    post_text ← lift (call_truncate_text (global_scope h)
                        title text_content limit);
    let final_text := post_text +:+ Py.nl +:+ Py.nl +:+ url in
    if status_post h final_text
    then emit (Log INFO (MastodonPosted title));; mret true
    else emit (Log ERROR MastodonFailed);; mret false.

Record manifest_item : Type := {
  frontmatter : pyval;
  filepath : string
}.

(** The loop of [mark_syndicated], lines 177-185, from index [i] on. *)
Fixpoint write_lines (path delimiter syndicated_line : string) (i : nat)
    (found_closing : bool) (lines : list string) : M unit :=
  match lines with
  | [] => mret tt
  | line :: rest =>
      if (0 <? i)%nat && String.eqb (Py.strip line) delimiter
         && negb found_closing
      then
        f_write path syndicated_line;;
        f_write path line;;
        write_lines path delimiter syndicated_line (S i) true rest
      else
        f_write path line;;
        write_lines path delimiter syndicated_line (S i) found_closing rest
  end.

(** [mark_syndicated(manifest_item)], lines 162-189. *)
Definition mark_syndicated (item : manifest_item) : M unit :=
  emit (Call_mark_syndicated (filepath item));;
  try_except
    (text ← read_text (filepath item);
     let lines := Py.readlines text in
     first ← lift (match lines with
                   | [] => Raise IndexError
                   | l :: _ => Ok l
                   end);
     let is_toml := String.eqb (Py.strip first) "+++" in
     let delimiter := if is_toml then "+++" else "---" in
     let syndicated_line :=
       if is_toml then "syndicated = true" +:+ Py.nl
       else "syndicated: true" +:+ Py.nl in
     open_w (filepath item);;
     write_lines (filepath item) delimiter syndicated_line 0 false lines;;
     emit (Log INFO (UpdatedStatus (filepath item))))
    (λ e, emit (Log ERROR ErrorMarking)).

(** ** The run: scanning and processing *)

(** What [main] has after its arguments and clients are set up. *)
Record config : Type := {
  dry_run : bool;
  force : bool;
  bsky_client : bool;
  masto_client : bool
}.

(** [os.path.join(root, file)]. *)
Definition path_join (root file : string) : string :=
  if Py.startswith file "/" then file
  else if String.eqb root "" || Py.endswith root "/" then root +:+ file
  else root +:+ "/" +:+ file.

(** The body of the scanning loop of [main], lines 232-249, for one
    [file] of directory [root]; it returns the manifest it leaves. *)
Definition scan_file (h : host) (manifest : list manifest_item)
    (root file : string) : M (list manifest_item) :=
  if Py.endswith file ".md" then
    let filepath := path_join root file in
    try_except
      (content ← read_text filepath;
       fm ← parse_frontmatter h content;
       listed ← lift (if truthy fm then py_in "syndicate_to" fm
                      else Ok false);
       if (listed : bool) then
         syndicated ← lift (py_get fm "syndicated" (VBool false));
         if truthy syndicated then mret manifest
         else
           microblog_content ← lift (py_get fm "microblog_content" VNone);
           if negb (truthy microblog_content) then
             emit (Log WARNING (Skipped file));; mret manifest
           else
             mret (manifest
                   ++ [{| frontmatter := fm; filepath := filepath |}])
       else mret manifest)
      (λ e, emit (Log WARNING (CouldNotRead file));; mret manifest)
  else mret manifest.

(** The scanning loops over what [os.walk] yields: each directory with
    the names of its files. *)
Fixpoint scan_files (h : host) (manifest : list manifest_item)
    (root : string) (names : list string) : M (list manifest_item) :=
  match names with
  | [] => mret manifest
  | file :: names' =>
      manifest' ← scan_file h manifest root file;
      scan_files h manifest' root names'
  end.

Fixpoint scan (h : host) (manifest : list manifest_item)
    (walk : list (string * list string)) : M (list manifest_item) :=
  match walk with
  | [] => mret manifest
  | (root, names) :: walk' =>
      manifest' ← scan_files h manifest root names;
      scan h manifest' walk'
  end.

(** Step 2 of the processing loop, lines 267-285: the outcome list. *)
Definition run_targets (h : host) (cfg : config) (item : manifest_item)
    (title targets : pyval) (url : string) : M (list bool) :=
  let results : list bool := [] in
  wants_bsky ← lift (py_in "bluesky" targets);
  results ←
    (if (wants_bsky : bool) then
       if dry_run cfg then
         emit (Print (BlueskyDryRun title url));; mret (results ++ [true])
       else if bsky_client cfg then
         r ← syndicate_to_bluesky h (bsky_client cfg) (frontmatter item) url;
         mret (results ++ [r])
       else mret (results ++ [false])
     else mret results);
  wants_masto ← lift (py_in "mastodon" targets);
  (if (wants_masto : bool) then
     if dry_run cfg then
       emit (Print (MastodonDryRun title url));; mret (results ++ [true])
     else if masto_client cfg then
       r ← syndicate_to_mastodon h (masto_client cfg) (frontmatter item) url;
       mret (results ++ [r])
     else mret (results ++ [false])
   else mret results).

(** Step 3, lines 287-294. *)
Definition mark_step (cfg : config) (item : manifest_item) (title : pyval)
    (results : list bool) : M unit :=
  if (0 <? length results)%nat && forallb id results then
    if dry_run cfg then
      emit (Print (WouldMark (OsPath.basename (filepath item))))
    else mark_syndicated item
  else if negb (dry_run cfg) && (0 <? length results)%nat then
    emit (Log WARNING (PartialFailure title))
  else mret tt.

(** The body of the processing loop of [main], lines 255-294, for one
    manifest entry.  It returns the outcome list that step 3 was run
    on, or [None] when [continue] left the entry before step 2. *)
Definition process_item (h : host) (cfg : config) (item : manifest_item)
    : M (option (list bool)) :=
  title ← lift (py_get (frontmatter item) "title" (VStr "Unknown"));
  url ← lift (get_post_url (global_scope h) (filepath item)
                (frontmatter item));
  targets ← lift (py_get (frontmatter item) "syndicate_to" (VList []));
  reachable ←
    (if negb (dry_run cfg) && negb (force cfg) then
       emit (Log INFO (VerifyingUrl url));;
       ok ← verify_url_accessible h url;
       if negb ok then emit (Log CRITICAL (Stopping url));; mret false
       else mret true
     else mret true);
  if negb reachable then mret None
  else
    results ← run_targets h cfg item title targets url;
    mark_step cfg item title results;;
    mret (Some results).

Fixpoint process_manifest (h : host) (cfg : config)
    (manifest : list manifest_item) : M unit :=
  match manifest with
  | [] => mret tt
  | item :: manifest' =>
      process_item h cfg item;;
      process_manifest h cfg manifest'
  end.

(** [main] from the scan on, lines 227-294. *)
Definition run_main (h : host) (cfg : config)
    (walk : list (string * list string)) : M unit :=
  manifest ← scan h [] walk;
  emit (Log INFO (FoundPosts (length manifest)));;
  process_manifest h cfg manifest.


(** ** Definitions the properties are stated with *)

(** The site root every URL starts with, read off the environment. *)
Definition root_of (h : host) : string :=
  match getenv h "BASE_URL" with
  | Some s => if String.eqb s "" then "https://example.com"
              else Py.rstrip_slash s
  | None => "https://example.com"
  end.

(** A host with no environment set, parsers that know two sample
    headers, a reachable site and publishers that accept every post. *)
Definition sample_yaml (s : string) : result pyval :=
  if String.eqb s (Py.nl +:+ "syndicate_to: []" +:+ Py.nl
                   +:+ "microblog_content: hi" +:+ Py.nl)
  then Ok (VDict [("syndicate_to", VList []);
                  ("microblog_content", VStr "hi")])
  else if String.eqb s (Py.nl +:+ "syndicate_to: [bluesky]" +:+ Py.nl
                        +:+ "microblog_content: hi" +:+ Py.nl)
  then Ok (VDict [("syndicate_to", VList [VStr "bluesky"]);
                  ("microblog_content", VStr "hi")])
  else Raise DecodeError.

Definition sample_host : host := {|
  getenv := λ _, None;
  describe := λ name, "<" +:+ name +:+ ">";
  toml_loads := λ _, Raise DecodeError;
  yaml_safe_load := sample_yaml;
  http_get := λ _, Some 200;
  send_post := λ _, true;
  status_post := λ _, true
|}.

(** *** Reading the trace of one processed entry *)

(** The entry was marked: [mark_syndicated] was called on its file, or
    the dry run printed that it would be. *)
Definition marked (item : manifest_item) (evs : list event) : Prop :=
  In (Call_mark_syndicated (filepath item)) evs
  ∨ In (Print (WouldMark (OsPath.basename (filepath item)))) evs.

(** The partial-failure warning was logged. *)
Definition warned (evs : list event) : Prop :=
  ∃ title, In (Log WARNING (PartialFailure title)) evs.

(** Events that neither mark an entry nor warn of a partial failure. *)
Definition quiet (ev : event) : Prop :=
  match ev with
  | Call_mark_syndicated _ => False
  | Print (WouldMark _) => False
  | Log WARNING (PartialFailure _) => False
  | _ => True
  end.

(** [m] only adds events that satisfy [P] to the trace. *)
Definition emits {A} (P : event → Prop) (m : M A) : Prop :=
  ∀ w, ∃ new, trace (m w).2 = trace w ++ new ∧ Forall P new.

(** *** The rewrite of [mark_syndicated], as the specification words it *)

(** The closing delimiter and the marker line that the first line of
    the file determines. *)
Definition closing_delimiter (first : string) : string :=
  if String.eqb (Py.strip first) "+++" then "+++" else "---".

Definition marker_line (first : string) : string :=
  if String.eqb (Py.strip first) "+++" then "syndicated = true" +:+ Py.nl
  else "syndicated: true" +:+ Py.nl.

Fixpoint find_first (p : string → bool) (l : list string) : option nat :=
  match l with
  | [] => None
  | x :: l' => if p x then Some 0%nat else option_map S (find_first p l')
  end.

(** The index of the first line, after the opening one, whose stripped
    text is the closing delimiter. *)
Definition closing_index (lines : list string) : option nat :=
  match lines with
  | [] => None
  | first :: rest =>
      option_map S
        (find_first
           (λ line, String.eqb (Py.strip line) (closing_delimiter first))
           rest)
  end.

(** The original lines, with one marker line put in front of the
    closing delimiter when there is one. *)
Definition spec_marked_lines (lines : list string) : list string :=
  match closing_index lines with
  | Some k =>
      List.firstn k lines ++ [marker_line (List.hd "" lines)]
      ++ List.skipn k lines
  | None => lines
  end.

(** A sequence of [f.write] calls. *)
Fixpoint write_all (path : string) (chunks : list string) : M unit :=
  match chunks with
  | [] => mret tt
  | c :: cs => f_write path c;; write_all path cs
  end.

(** What the loop of [mark_syndicated] passes to [f.write], in order. *)
Fixpoint written_chunks (delimiter marker : string) (i : nat)
    (found_closing : bool) (lines : list string) : list string :=
  match lines with
  | [] => []
  | line :: rest =>
      if (0 <? i)%nat && String.eqb (Py.strip line) delimiter
         && negb found_closing
      then marker :: line :: written_chunks delimiter marker (S i) true rest
      else line :: written_chunks delimiter marker (S i) found_closing rest
  end.

(** A post with a YAML header, a manifest entry for it, and worlds
    that hold it. *)
Definition sample_text : string :=
  "---" +:+ Py.nl +:+ "title: x" +:+ Py.nl +:+ "---" +:+ Py.nl
  +:+ "body" +:+ Py.nl.

Definition sample_item : manifest_item := {|
  frontmatter := VDict [("title", VStr "x");
                        ("syndicate_to", VList [VStr "bluesky"]);
                        ("microblog_content", VStr "hi")];
  filepath := "content/post.md"
|}.

Definition sample_world (f : io_fault) : world := {|
  files := {[ "content/post.md" := sample_text ]};
  fault := f;
  trace := []
|}.

(** C6 as the specification states it: when [mark_syndicated] caught a
    failure, the run goes on and the file of the entry is as it was. *)
Definition failure_caught (item : manifest_item) (w : world) : Prop :=
  List.last (trace (mark_syndicated item w).2) (Log INFO ParsingError)
  = Log ERROR ErrorMarking.

Definition failure_leaves_file_unchanged (item : manifest_item) (w : world)
    : Prop :=
  failure_caught item w →
  (mark_syndicated item w).1 = Ok tt
  ∧ files (mark_syndicated item w).2 !! filepath item
    = files w !! filepath item.

(** *** The scanner's test, as coded and as specified *)

(** The value [parse_frontmatter] returns for [content]. *)
Definition parsed_header (h : host) (content : string) : pyval :=
  let parsed (r : result pyval) :=
    match r with
    | Ok v => v
    | Raise _ => VNone
    end in
  if Py.startswith content "+++" then
    parsed (toml_loads h (Py.slice content 3 (Py.find content "+++" 3)))
  else if Py.startswith content "---" then
    parsed (yaml_safe_load h (Py.slice content 3 (Py.find content "---" 3)))
  else VNone.

(** The test of lines 239-245: a mapping that has the key
    [syndicate_to], no true [syndicated] value and a true
    [microblog_content] value. *)
Definition listed_for_syndication (fm : pyval) : bool :=
  match fm with
  | VDict d =>
      dict_has d "syndicate_to"
      && negb (truthy (dict_get d "syndicated" (VBool false)))
      && truthy (dict_get d "microblog_content" VNone)
  | _ => false
  end.

(** Eligibility in the words of the specification: the header parses,
    its set of syndicate targets is not empty, its excerpt text is not
    empty, and it is not marked as syndicated. *)
Definition eligible_by_spec (fm : pyval) : bool :=
  match fm with
  | VDict d =>
      truthy (dict_get d "syndicate_to" (VList []))
      && truthy (dict_get d "microblog_content" VNone)
      && negb (truthy (dict_get d "syndicated" (VBool false)))
  | _ => false
  end.

(** The scanner appended the file to the manifest. *)
Definition appended (h : host) (w : world) (manifest : list manifest_item)
    (root file : string) : Prop :=
  ∃ item, (scan_file h manifest root file w).1 = Ok (manifest ++ [item]).

(** C4 as the specification states it. *)
Definition appended_iff_eligible (h : host) (w : world)
    (manifest : list manifest_item) (root file : string) : Prop :=
  appended h w manifest root file
  ↔ ∃ content,
      files w !! path_join root file = Some content
      ∧ eligible_by_spec (parsed_header h (Py.universal_newlines content))
        = true.

(** A post whose header lists no target at all. *)
Definition untargeted_text : string :=
  "---" +:+ Py.nl +:+ "syndicate_to: []" +:+ Py.nl
  +:+ "microblog_content: hi" +:+ Py.nl +:+ "---" +:+ Py.nl
  +:+ "body" +:+ Py.nl.

Definition untargeted_world : world := {|
  files := {[ "content/note.md" := untargeted_text ]};
  fault := NoFault;
  trace := []
|}.

(** C4 as the code has it: the header is a mapping with the key
    [syndicate_to], a true [microblog_content] value and no true
    [syndicated] value. *)
Definition listed_header (h : host) (w : world) (path : string) : Prop :=
  ∃ content d,
    files w !! path = Some content
    ∧ parsed_header h (Py.universal_newlines content) = VDict d
    ∧ dict_has d "syndicate_to" = true
    ∧ truthy (dict_get d "microblog_content" VNone) = true
    ∧ truthy (dict_get d "syndicated" (VBool false)) = false.

(** *** URLs *)

Fixpoint has_char (c : ascii) (s : string) : bool :=
  match s with
  | "" => false
  | String d s' => Ascii.eqb d c || has_char c s'
  end.

(** A leaf bundle: a file named [index.md] or [_index.md]. *)
Definition is_leaf_bundle (filepath : string) : bool :=
  String.eqb (OsPath.basename filepath) "index.md"
  || String.eqb (OsPath.basename filepath) "_index.md".

(** The last path segment of a URL that ends with a slash. *)
Definition last_url_segment (url : string) : string :=
  List.last (removelast (Py.split "/" url)) "".

(** The directory a file lies in: the segment before its name. *)
Definition last_dir_segment (filepath : string) : string :=
  List.last (removelast (path_parts filepath)) "".

(** What closes the URL path of a post: the slug, or without one the
    file name less its extension. *)
Definition closing_part (filepath : string) (d : dict) : pyval :=
  if truthy (dict_get d "slug" VNone) then dict_get d "slug" VNone
  else VStr (OsPath.splitext_root (OsPath.basename filepath)).

(** C8 as the specification states it: the URL of a leaf bundle ends
    with the slug when the header has one, and with the last directory
    of the path otherwise. *)
Definition leaf_url_ends_with_slug_or_dir (g : namespace) (filepath : string)
    (d : dict) : Prop :=
  is_leaf_bundle filepath = true →
  ∃ url,
    get_post_url g filepath (VDict d) = Ok url
    ∧ VStr (last_url_segment url)
      = (if truthy (dict_get d "slug" VNone) then dict_get d "slug" VNone
         else VStr (last_dir_segment filepath)).

(** C9 as the specification states it: with a ["content"] segment in
    the path, no segment of the URL is ["content"]. *)
Definition url_avoids_content (g : namespace) (filepath : string) (d : dict)
    : Prop :=
  In "content" (path_parts filepath) →
  ∀ url, get_post_url g filepath (VDict d) = Ok url →
         ¬ In "content" (Py.split "/" url).

(** The URL with path segments [segs] under the root of host [h]. *)
Definition url_of (h : host) (segs : list string) : string :=
  root_of h +:+ "/" +:+ Py.join "/" segs +:+ "/".

Definition slugged (slug : string) : dict := [("slug", VStr slug)].

(** Three ways to run: a dry run, a forced run with no Bluesky client,
    and a forced run with one. *)
Definition dry_config : config :=
  {| dry_run := true; force := false;
     bsky_client := false; masto_client := false |}.

Definition no_bsky_config : config :=
  {| dry_run := false; force := true;
     bsky_client := false; masto_client := true |}.

Definition bsky_config : config :=
  {| dry_run := false; force := true;
     bsky_client := true; masto_client := false |}.

(** C5 as the specification states it: the rewritten file is the
    input with at most one marker line put in, every other byte as it
    was. *)
Definition rewrite_only_inserts (item : manifest_item) (w : world) : Prop :=
  ∀ text,
    files w !! filepath item = Some text → fault w = NoFault →
    ∃ before marker after,
      text = before +:+ after
      ∧ files (mark_syndicated item w).2
        = <[filepath item := before +:+ marker +:+ after]> (files w).

(** A file without header whose line ends with [\r\n]. *)
Definition crlf_item : manifest_item :=
  {| frontmatter := VDict []; filepath := "dos.md" |}.

Definition crlf_world : world := {|
  files := {[ "dos.md" :=
                "no header here"
                +:+ String (ascii_of_nat 13) (String (ascii_of_nat 10) "") ]};
  fault := NoFault;
  trace := []
|}.


(** ** The rest of [main]: setting the clients up *)

(** How the two client libraries answer: whether [Client()] returns,
    whether [login] returns, whether [Mastodon(...)] returns. *)
Record connectors : Type := {
  bsky_new : bool;
  bsky_login : bool;
  masto_new : bool
}.

(** The lines lines 198-225 log. *)
Inductive setup_line : Type :=
| NoCredentials
| ConnectedBluesky
| BlueskyConnectionError
| ConnectedMastodon
| MastodonConnectionError
| DryRunActive.

(** [all([A, B])] on two module-level names. *)
Definition all_set (g : namespace) (a b : string) : result bool :=
  va ← load_global g a;
  vb ← load_global g b;
  Ok (g_truthy va && g_truthy vb).

(** Lines 198-225.  The result holds what was logged and, unless
    [sys.exit(1)] was reached, whether [bsky_client] and
    [masto_client] are objects ([true]) or [None] ([false]). *)
Definition setup_clients (h : host) (c : connectors) (dry_run : bool)
    : result (list setup_line * option (bool * bool)) :=
  if negb dry_run then
    has_bsky_creds ← all_set (global_scope h) "BSKY_HANDLE" "BSKY_PASSWORD";
    has_masto_creds ←
      all_set (global_scope h) "MASTODON_ACCESS_TOKEN" "MASTODON_API_BASE";
    if negb has_bsky_creds && negb has_masto_creds then
      Ok ([NoCredentials], None)
    else
      let '(log1, bsky_client) :=
        if (has_bsky_creds : bool) then
          if bsky_new c then
            if bsky_login c then ([ConnectedBluesky], true)
            else ([BlueskyConnectionError], true)
          else ([BlueskyConnectionError], false)
        else ([], false) in
      let '(log2, masto_client) :=
        if (has_masto_creds : bool) then
          if masto_new c then ([ConnectedMastodon], true)
          else ([MastodonConnectionError], false)
        else ([], false) in
      Ok (log1 ++ log2, Some (bsky_client, masto_client))
  else Ok ([DryRunActive], Some (false, false)).

(** How a run of [main] ends: [sys.exit(code)], or the end (or the
    uncaught exception) of what follows the setup. *)
Inductive outcome : Type :=
| Exit (code : Z)
| Ran (r : result unit) (w : world).

(** [main], lines 191-294, on parsed arguments. *)
Definition main (h : host) (c : connectors) (dry_run force : bool)
    (walk : list (string * list string)) (w : world)
    : list setup_line * outcome :=
  match setup_clients h c dry_run with
  | Raise e => ([], Ran (Raise e) w)
  | Ok (lines, None) => (lines, Exit 1)
  | Ok (lines, Some (bsky, masto)) =>
      let cfg := {| dry_run := dry_run; force := force;
                    bsky_client := bsky; masto_client := masto |} in
      (lines, Ran (run_main h cfg walk w).1 (run_main h cfg walk w).2)
  end.

(** *** Definitions for the further properties *)

(** Whether a credential is set: the variable exists and is not empty. *)
Definition env_set (h : host) (name : string) : bool :=
  match getenv h name with
  | Some s => negb (String.eqb s "")
  | None => false
  end.

(** [m] leaves the files and the pending fault as they are and calls
    [mark_syndicated] on nothing. *)
Definition not_a_call (ev : event) : Prop :=
  match ev with
  | Call_mark_syndicated _ => False
  | _ => True
  end.

Definition harmless {A} (m : M A) : Prop :=
  ∀ w, files (m w).2 = files w
       ∧ fault (m w).2 = fault w
       ∧ ∃ new, trace (m w).2 = trace w ++ new ∧ Forall not_a_call new.

(** Every value [m] returns satisfies [Q]. *)
Definition returns_only {A} (Q : A → Prop) (m : M A) : Prop :=
  ∀ w a, (m w).1 = Ok a → Q a.

(** The entry the scanner makes of [file] in directory [root], when
    the files are [fs]. *)
Definition entry_of (h : host) (fs : gmap string string) (root file : string)
    : option manifest_item :=
  if Py.endswith file ".md" then
    match fs !! path_join root file with
    | Some content =>
        let fm := parsed_header h (Py.universal_newlines content) in
        if listed_for_syndication fm
        then Some {| frontmatter := fm; filepath := path_join root file |}
        else None
    | None => None
    end
  else None.

Fixpoint dir_entries (h : host) (fs : gmap string string) (root : string)
    (names : list string) : list manifest_item :=
  match names with
  | [] => []
  | file :: names' =>
      match entry_of h fs root file with
      | Some item => item :: dir_entries h fs root names'
      | None => dir_entries h fs root names'
      end
  end.

Fixpoint walk_entries (h : host) (fs : gmap string string)
    (walk : list (string * list string)) : list manifest_item :=
  match walk with
  | [] => []
  | (root, names) :: walk' =>
      dir_entries h fs root names ++ walk_entries h fs walk'
  end.

(** A host whose environment holds the two Bluesky credentials, and
    client libraries where only the Bluesky login fails. *)
Definition bsky_host : host := {|
  getenv := λ name,
    if String.eqb name "BSKY_HANDLE" then Some "me.example.com"
    else if String.eqb name "BSKY_PASSWORD" then Some "secret"
    else None;
  describe := describe sample_host;
  toml_loads := toml_loads sample_host;
  yaml_safe_load := yaml_safe_load sample_host;
  http_get := http_get sample_host;
  send_post := send_post sample_host;
  status_post := status_post sample_host
|}.

Definition failing_login : connectors :=
  {| bsky_new := true; bsky_login := false; masto_new := true |}.

(** *** Lines as [readlines] gives them *)

(** [l] is a line with its newline: the newline is its last character
    and its only one. *)
Fixpoint ends_line (l : string) : bool :=
  match l with
  | "" => false
  | String c r =>
      match r with
      | "" => Ascii.eqb c (ascii_of_nat 10)
      | _ => negb (Ascii.eqb c (ascii_of_nat 10)) && ends_line r
      end
  end.

(** [l] is a last line without newline: not empty, no newline. *)
Definition open_line (l : string) : bool :=
  negb (String.eqb l "") && negb (has_char (ascii_of_nat 10) l).

(** Every line but the last ends with its newline; the last one does,
    or is an open line. *)
Fixpoint lines_ok (lines : list string) : bool :=
  match lines with
  | [] => true
  | l :: rest =>
      match rest with
      | [] => ends_line l || open_line l
      | _ => ends_line l && lines_ok rest
      end
  end.

(** A file without any header. *)
Definition plain_item : manifest_item :=
  {| frontmatter := VDict []; filepath := "plain.md" |}.

Definition plain_world : world :=
  {| files := {[ "plain.md" := "no header here" ]};
     fault := NoFault; trace := [] |}.


(** * Properties *)

(** ** [truncate_text] *)

(** No module-level statement binds [forced_suffix], and it is no
    builtin. *)
Lemma forced_suffix_unbound (h : host) :
  load_global (global_scope h) "forced_suffix"
  = Raise (NameError "forced_suffix").
Proof. reflexivity. Qed.

(** C2: for every title, content, limit and suffix, [truncate_text]
    returns no value: the saturation branch and the normal branch both
    read the unbound name [forced_suffix], so every call raises
    [NameError]. *)
Theorem truncate_text_always_raises_NameError
    (h : host) (title content : string) (limit : Z) (suffix : string) :
  truncate_text (global_scope h) title content limit suffix
  = Raise (NameError "forced_suffix").
Proof.
  unfold truncate_text.
  destruct (_ <=? 0); rewrite forced_suffix_unbound; reflexivity.
Qed.

(** C1 (the code departs from it): a call with a suffix, whose result
    should hold the suffix in full within the limit, returns no string
    at all. *)
Theorem truncate_text_with_suffix_raises (h : host) :
  truncate_text (global_scope h) "Hello World" "A short excerpt" 290 "#blog"
  = Raise (NameError "forced_suffix").
Proof. reflexivity. Qed.

(** C7 (the code departs from it): a call in the saturation branch,
    limit 10 against 20 reserved characters, should return the
    shortened title and the whole suffix, and raises instead. *)
Theorem truncate_text_saturation_raises (h : host) :
  10 - (Py.len "Hello World" + 2 + Py.len "#blog" + 2) <= 0
  ∧ truncate_text (global_scope h) "Hello World" "" 10 "#blog"
    = Raise (NameError "forced_suffix").
Proof. split; [vm_compute; discriminate | reflexivity]. Qed.

(** C10 (the code departs from it): a body that fits its budget should
    come back unchanged, the same on every call; the call returns no
    string. *)
Theorem truncate_text_fitting_body_raises (h : host) :
  Py.len "World" <= 100 - (Py.len "Hello" + 2)
  ∧ truncate_text (global_scope h) "Hello" "World" 100 ""
    = Raise (NameError "forced_suffix").
Proof. split; [vm_compute; discriminate | reflexivity]. Qed.

(** With the name bound, the same function body returns the text the
    three sentences above describe. *)
Example truncate_text_when_bound :
  truncate_text (("forced_suffix", GStr "#blog") :: global_scope sample_host)
    "Hello" "World" 100 "#blog"
  = Ok ("Hello" +:+ Py.nl +:+ Py.nl +:+ "World" +:+ Py.nl +:+ Py.nl
        +:+ "#blog").
Proof. reflexivity. Qed.

(** ** Traces *)

Lemma emits_ret {A} (P : event → Prop) (a : A) : emits P (mret a).
Proof. intros w. exists []. simpl. rewrite app_nil_r. auto. Qed.

Lemma emits_lift {A} (P : event → Prop) (r : result A) : emits P (lift r).
Proof. intros w. exists []. simpl. rewrite app_nil_r. auto. Qed.

Lemma emits_emit (P : event → Prop) (ev : event) : P ev → emits P (emit ev).
Proof. intros H w. exists [ev]. simpl. auto. Qed.

Lemma emits_bind {A B} (P : event → Prop) (m : M A) (k : A → M B) :
  emits P m → (∀ a, emits P (k a)) → emits P (m ≫= k).
Proof.
  intros Hm Hk w. unfold mbind, M_bind.
  destruct (Hm w) as (n1 & E1 & F1).
  destruct (m w) as [[a|e] w1]; simpl in *.
  - destruct (Hk a w1) as (n2 & E2 & F2).
    exists (n1 ++ n2). rewrite E2, E1, app_assoc. split; [done|].
    apply Forall_app; auto.
  - exists n1. auto.
Qed.

Lemma emits_try {A} (P : event → Prop) (m : M A) (hd : exn → M A) :
  emits P m → (∀ e, emits P (hd e)) → emits P (try_except m hd).
Proof.
  intros Hm Hk w. unfold try_except.
  destruct (Hm w) as (n1 & E1 & F1).
  destruct (m w) as [[a|e] w1]; simpl in *.
  - exists n1. auto.
  - destruct (Hk e w1) as (n2 & E2 & F2).
    exists (n1 ++ n2). rewrite E2, E1, app_assoc. split; [done|].
    apply Forall_app; auto.
Qed.

Lemma emits_if {A} (P : event → Prop) (b : bool) (m1 m2 : M A) :
  emits P m1 → emits P m2 → emits P (if b then m1 else m2).
Proof. destruct b; auto. Qed.

Lemma emits_read_text (P : event → Prop) (path : string) :
  emits P (read_text path).
Proof.
  intros w. exists []. unfold read_text.
  destruct (files w !! path); simpl; rewrite app_nil_r; auto.
Qed.

Lemma emits_open_w (P : event → Prop) (path : string) : emits P (open_w path).
Proof.
  intros w. exists []. unfold open_w.
  destruct (fault w); simpl; rewrite app_nil_r; auto.
Qed.

Lemma emits_f_write (P : event → Prop) (path s : string) :
  emits P (f_write path s).
Proof.
  intros w. exists []. unfold f_write.
  destruct (fault w) as [| |[|n]]; simpl; rewrite app_nil_r; auto.
Qed.

Ltac emits_step :=
  first
    [ apply emits_ret
    | apply emits_lift
    | apply emits_read_text
    | apply emits_open_w
    | apply emits_f_write
    | apply emits_emit; exact I
    | apply emits_bind; [| intros ?]
    | apply emits_try; [| intros ?]
    | apply emits_if
    | match goal with
      | |- emits _ (match ?x with _ => _ end) => destruct x
      end ].

Lemma emits_write_lines (P : event → Prop) (path delimiter marker : string)
    (lines : list string) :
  ∀ i found, emits P (write_lines path delimiter marker i found lines).
Proof.
  induction lines as [|line rest IH]; intros i found; simpl.
  - apply emits_ret.
  - apply emits_if; repeat (apply emits_bind; [apply emits_f_write | intros ?]);
      apply IH.
Qed.

Lemma emits_parse_frontmatter (h : host) (content : string) :
  emits quiet (parse_frontmatter h content).
Proof. unfold parse_frontmatter. repeat emits_step. Qed.

Lemma emits_verify_url_accessible (h : host) (url : string) :
  emits quiet (verify_url_accessible h url).
Proof. unfold verify_url_accessible. repeat emits_step. Qed.

Lemma emits_syndicate_to_bluesky (h : host) (client : bool) (fm : pyval)
    (url : string) :
  emits quiet (syndicate_to_bluesky h client fm url).
Proof. unfold syndicate_to_bluesky. repeat emits_step. Qed.

Lemma emits_syndicate_to_mastodon (h : host) (client : bool) (fm : pyval)
    (url : string) :
  emits quiet (syndicate_to_mastodon h client fm url).
Proof. unfold syndicate_to_mastodon. repeat emits_step. Qed.

Lemma emits_run_targets (h : host) (cfg : config) (item : manifest_item)
    (title targets : pyval) (url : string) :
  emits quiet (run_targets h cfg item title targets url).
Proof.
  unfold run_targets.
  repeat first [ apply emits_syndicate_to_bluesky
               | apply emits_syndicate_to_mastodon
               | emits_step ].
Qed.

(** In a dry run every outcome is a simulated success. *)
Lemma run_targets_dry_run (h : host) (cfg : config) (item : manifest_item)
    (title targets : pyval) (url : string) (w : world) (rs : list bool) :
  dry_run cfg = true →
  (run_targets h cfg item title targets url w).1 = Ok rs →
  forallb id rs = true.
Proof.
  intros Hdry. unfold run_targets, mbind, M_bind, lift, emit, mret, M_ret.
  rewrite Hdry.
  destruct (py_in "bluesky" targets) as [[|]|];
    destruct (py_in "mastodon" targets) as [[|]|]; simpl;
    intros E; inversion E; reflexivity.
Qed.

(** [mark_syndicated] catches whatever its body raises. *)
Lemma mark_syndicated_returns (item : manifest_item) (w : world) :
  (mark_syndicated item w).1 = Ok tt.
Proof.
  unfold mark_syndicated, mbind, M_bind, try_except. simpl.
  match goal with
  | |- (match ?b with _ => _ end).1 = _ => destruct b as [[[]|e] w1]
  end; reflexivity.
Qed.

Lemma mark_syndicated_trace (item : manifest_item) (w : world) :
  ∃ rest,
    trace (mark_syndicated item w).2
    = trace w ++ Call_mark_syndicated (filepath item) :: rest
    ∧ Forall quiet rest.
Proof.
  unfold mark_syndicated, mbind at 1, M_bind at 1. simpl.
  match goal with
  | |- context [try_except ?b ?hd ?w1] =>
      assert (He : emits quiet (try_except b hd))
  end.
  { repeat first [apply emits_write_lines | emits_step]. }
  destruct (He (with_event w (Call_mark_syndicated (filepath item))))
    as (rest & E & F).
  exists rest. rewrite E. simpl. rewrite <- app_assoc. auto.
Qed.

Lemma marked_app (item : manifest_item) (l1 l2 : list event) :
  marked item (l1 ++ l2) ↔ marked item l1 ∨ marked item l2.
Proof. unfold marked. rewrite !in_app_iff. tauto. Qed.

Lemma warned_app (l1 l2 : list event) :
  warned (l1 ++ l2) ↔ warned l1 ∨ warned l2.
Proof.
  unfold warned. split.
  - intros (t & H). apply in_app_iff in H as [H|H]; eauto.
  - intros [(t & H)|(t & H)]; exists t; apply in_app_iff; auto.
Qed.

Lemma quiet_not_marked (item : manifest_item) (l : list event) :
  Forall quiet l → ¬ marked item l.
Proof.
  intros F [H|H]; eapply List.Forall_forall in H; eauto; exact H.
Qed.

Lemma quiet_not_warned (l : list event) : Forall quiet l → ¬ warned l.
Proof.
  intros F (t & H). eapply List.Forall_forall in H; eauto. exact H.
Qed.

Lemma nonempty_length {A} (l : list A) : (0 <? length l)%nat = true ↔ l ≠ [].
Proof.
  destruct l; cbn; split; intros H; try done.
Qed.

(** Step 3 on an outcome list. *)
Lemma mark_step_spec (cfg : config) (item : manifest_item) (title : pyval)
    (rs : list bool) (w : world) :
  ∃ new,
    (mark_step cfg item title rs w).1 = Ok tt
    ∧ trace (mark_step cfg item title rs w).2 = trace w ++ new
    ∧ (marked item new ↔ rs ≠ [] ∧ forallb id rs = true)
    ∧ (warned new ↔ dry_run cfg = false ∧ rs ≠ [] ∧ forallb id rs = false).
Proof.
  unfold mark_step.
  destruct (0 <? length rs)%nat eqn:Hlen; simpl.
  - apply nonempty_length in Hlen.
    destruct (forallb id rs) eqn:Hall; simpl.
    + destruct (dry_run cfg) eqn:Hdry.
      * exists [Print (WouldMark (OsPath.basename (filepath item)))].
        unfold marked, warned; simpl. naive_solver.
      * destruct (mark_syndicated_trace item w) as (rest & E & F).
        exists (Call_mark_syndicated (filepath item) :: rest).
        split; [apply mark_syndicated_returns|]. split; [exact E|].
        pose proof (quiet_not_warned rest F) as Hw.
        unfold marked, warned in *; simpl. naive_solver.
    + destruct (dry_run cfg) eqn:Hdry; simpl.
      * exists []. rewrite app_nil_r.
        unfold marked, warned; simpl. naive_solver.
      * exists [Log WARNING (PartialFailure title)].
        unfold marked, warned; simpl. naive_solver.
  - assert (rs = []) as -> by (destruct rs; [reflexivity | discriminate]).
    rewrite andb_false_r. simpl.
    exists []. rewrite app_nil_r.
    unfold marked, warned; simpl. naive_solver.
Qed.

Lemma bind_run {A B} (m : M A) (k : A → M B) (w : world) :
  (m ≫= k) w
  = match m w with
    | (Ok a, w') => k a w'
    | (Raise e, w') => (Raise e, w')
    end.
Proof. reflexivity. Qed.

Lemma bind_lift {A B} (r : result A) (k : A → M B) (w : world) :
  (lift r ≫= k) w
  = match r with
    | Ok a => k a w
    | Raise e => (Raise e, w)
    end.
Proof. destruct r; reflexivity. Qed.




(** The trace of the loop body for one entry, read against the outcome
    list it returns. *)
Lemma process_item_marks_iff_all_succeeded
    (h : host) (cfg : config) (item : manifest_item) (w : world) :
  ∃ new,
    trace (process_item h cfg item w).2 = trace w ++ new
    ∧ (marked item new
       ↔ ∃ rs, (process_item h cfg item w).1 = Ok (Some rs)
               ∧ rs ≠ [] ∧ forallb id rs = true)
    ∧ (∀ rs, (process_item h cfg item w).1 = Ok (Some rs) →
             rs ≠ [] → forallb id rs = false →
             warned new ∧ ¬ marked item new)
    ∧ (∀ rs, (process_item h cfg item w).1 = Ok (Some rs) →
             rs = [] → ¬ marked item new ∧ ¬ warned new).
Proof.
  assert (Hnil : ∀ (r : result (option (list bool))) w',
             w' = w → (∀ rs, r ≠ Ok (Some rs)) →
             ∃ new, trace w' = trace w ++ new
               ∧ (marked item new
                  ↔ ∃ rs, r = Ok (Some rs) ∧ rs ≠ [] ∧ forallb id rs = true)
               ∧ (∀ rs, r = Ok (Some rs) → rs ≠ [] → forallb id rs = false →
                        warned new ∧ ¬ marked item new)
               ∧ (∀ rs, r = Ok (Some rs) → rs = [] →
                        ¬ marked item new ∧ ¬ warned new)).
  { intros r w' -> Hr. exists []. rewrite app_nil_r.
    unfold marked, warned; simpl. naive_solver. }
  unfold process_item.
  rewrite bind_lift.
  destruct (py_get (frontmatter item) "title" (VStr "Unknown")) as [title|e];
    [| apply Hnil; [reflexivity | discriminate]].
  rewrite bind_lift.
  destruct (get_post_url _ _ _) as [url|e];
    [| apply Hnil; [reflexivity | discriminate]].
  rewrite bind_lift.
  destruct (py_get (frontmatter item) "syndicate_to" (VList [])) as [targets|e];
    [| apply Hnil; [reflexivity | discriminate]].
  clear Hnil. rewrite bind_run.
  match goal with
  | |- context [match ?m w with _ => _ end] =>
      assert (H1 : emits quiet m)
        by (repeat first [apply emits_verify_url_accessible | emits_step]);
      destruct (H1 w) as (q1 & E1 & F1); clear H1;
      destruct (m w) as [[reachable|e] w1]
  end; simpl in E1.
  2: { exists q1. split; [exact E1|].
       pose proof (quiet_not_marked item q1 F1).
       pose proof (quiet_not_warned q1 F1). simpl. naive_solver. }
  destruct reachable; simpl.
  2: { exists q1. split; [exact E1|].
       pose proof (quiet_not_marked item q1 F1).
       pose proof (quiet_not_warned q1 F1). simpl. naive_solver. }
  rewrite bind_run.
  destruct (emits_run_targets h cfg item title targets url w1)
    as (q2 & E2 & F2).
  pose proof (run_targets_dry_run h cfg item title targets url w1) as Hdry.
  destruct (run_targets h cfg item title targets url w1) as [[rs|e] w2];
    simpl in E2, Hdry.
  2: { exists (q1 ++ q2). simpl. rewrite E2, E1, <- List.app_assoc.
       split; [done|].
       assert (F : Forall quiet (q1 ++ q2)) by (apply Forall_app; auto).
       pose proof (quiet_not_marked item _ F).
       pose proof (quiet_not_warned _ F). simpl. naive_solver. }
  rewrite bind_run.
  destruct (mark_step_spec cfg item title rs w2) as (m & R3 & E3 & Hm & Hw).
  destruct (mark_step cfg item title rs w2) as [[[]|e] w3]; simpl in R3, E3;
    [| discriminate].
  exists ((q1 ++ q2) ++ m). simpl.
  split; [rewrite E3, E2, E1, <- !List.app_assoc; reflexivity|].
  assert (F : Forall quiet (q1 ++ q2)) by (apply Forall_app; auto).
  pose proof (quiet_not_marked item _ F) as Nm.
  pose proof (quiet_not_warned _ F) as Nw.
  pose proof (marked_app item (q1 ++ q2) m) as Ma.
  pose proof (warned_app (q1 ++ q2) m) as Wa.
  split; [|split].
  - rewrite Ma. split.
    + intros [?|Hmk]; [tauto|]. exists rs. split; [reflexivity|]. tauto.
    + intros (rs' & Heq & ? & ?). inversion Heq; subst rs'. right. tauto.
  - intros rs' Heq Hne Hall. inversion Heq; subst rs'. rewrite Ma, Wa.
    assert (dry_run cfg = false) as Hd.
    { destruct (dry_run cfg); [|reflexivity].
      rewrite Hdry in Hall by reflexivity. discriminate. }
    split; [right; tauto|].
    intros [?|Hmk]; [tauto|]. apply Hm in Hmk as [_ Hmk]. congruence.
  - intros rs' Heq ->. inversion Heq; subst rs. rewrite Ma, Wa.
    split.
    + intros [?|Hmk]; [tauto|]. apply Hm in Hmk as [Hmk _]. congruence.
    + intros [?|Hwk]; [tauto|]. apply Hw in Hwk as (_ & Hwk & _). congruence.
Qed.

(** The three runs of the sample entry: the dry run prints that it
    would mark; without a client the outcome is a failure and the
    warning is logged; with a client the publisher calls
    [truncate_text] outside its [try], and the [NameError] ends the
    run before any outcome exists. *)
Example dry_run_would_mark :
  process_item sample_host dry_config sample_item (sample_world NoFault)
  = (Ok (Some [true]),
     {| files := files (sample_world NoFault); fault := NoFault;
        trace := [Print (BlueskyDryRun (VStr "x")
                           "https://example.com/post/");
                  Print (WouldMark "post.md")] |}).
Proof. reflexivity. Qed.

Example missing_client_warns :
  process_item sample_host no_bsky_config sample_item (sample_world NoFault)
  = (Ok (Some [false]),
     {| files := files (sample_world NoFault); fault := NoFault;
        trace := [Log WARNING (PartialFailure (VStr "x"))] |}).
Proof. reflexivity. Qed.

Example configured_client_aborts :
  process_item sample_host bsky_config sample_item (sample_world NoFault)
  = (Raise (NameError "forced_suffix"), sample_world NoFault).
Proof. reflexivity. Qed.

Lemma call_truncate_text_raises (h : host) (title text_content : pyval)
    (limit : Z) :
  ∃ e, call_truncate_text (global_scope h) title text_content limit = Raise e.
Proof.
  unfold call_truncate_text, truncate_text.
  destruct title; try (eexists; reflexivity).
  destruct text_content; try (eexists; reflexivity).
  destruct (_ <=? 0); rewrite forced_suffix_unbound; eexists; reflexivity.
Qed.

(** A publisher that has a client never returns an outcome. *)
Lemma syndicate_to_bluesky_raises (h : host) (fm : pyval) (url : string)
    (w : world) :
  ∃ e, syndicate_to_bluesky h true fm url w = (Raise e, w).
Proof.
  unfold syndicate_to_bluesky. cbn [negb].
  destruct fm; try (eexists; reflexivity).
  rewrite !bind_lift. cbn [py_get].
  change (global_int (global_scope h) "BSKY_CHAR_LIMIT") with (Ok 290).
  rewrite !bind_lift.
  destruct (call_truncate_text_raises h (dict_get d "title" (VStr "New Post"))
              (dict_get d "microblog_content" (VStr "")) 290) as (e & ->).
  eexists; reflexivity.
Qed.

Lemma syndicate_to_mastodon_raises (h : host) (fm : pyval) (url : string)
    (w : world) :
  ∃ e, syndicate_to_mastodon h true fm url w = (Raise e, w).
Proof.
  unfold syndicate_to_mastodon. cbn [negb].
  destruct fm; try (eexists; reflexivity).
  rewrite !bind_lift. cbn [py_get].
  change (global_int (global_scope h) "MASTODON_CHAR_LIMIT") with (Ok 490).
  rewrite !bind_lift.
  destruct (call_truncate_text_raises h (dict_get d "title" (VStr "New Post"))
              (dict_get d "microblog_content" (VStr ""))
              (490 - Py.len url - 2)) as (e & ->).
  eexists; reflexivity.
Qed.

(** ** [mark_syndicated] *)

Lemma str_app_nil_r (s : string) : s +:+ "" = s.
Proof.
  induction s as [|c s IH]; [reflexivity|].
  change (String c (s +:+ "") = String c s). f_equal. exact IH.
Qed.

Lemma str_app_assoc (s1 s2 s3 : string) :
  (s1 +:+ s2) +:+ s3 = s1 +:+ (s2 +:+ s3).
Proof.
  induction s1 as [|c s1 IH]; [reflexivity|].
  change (String c ((s1 +:+ s2) +:+ s3) = String c (s1 +:+ (s2 +:+ s3))).
  f_equal. exact IH.
Qed.

Lemma concat_cons (x : string) (xs : list string) :
  String.concat "" (x :: xs) = x +:+ String.concat "" xs.
Proof.
  destruct xs as [|y ys]; simpl.
  - symmetry. apply str_app_nil_r.
  - reflexivity.
Qed.

Lemma concat_app (xs ys : list string) :
  String.concat "" (xs ++ ys) = String.concat "" xs +:+ String.concat "" ys.
Proof.
  induction xs as [|x xs IH].
  - reflexivity.
  - change ((x :: xs) ++ ys) with (x :: (xs ++ ys)).
    rewrite !concat_cons, IH, str_app_assoc. reflexivity.
Qed.

(** Reading the lines of a text and writing them back gives the text. *)
Lemma concat_readlines (s : string) : String.concat "" (Py.readlines s) = s.
Proof.
  induction s as [|c s IH]; [reflexivity|].
  cbn [Py.readlines].
  destruct (Ascii.eqb c (ascii_of_nat 10)).
  - rewrite concat_cons, IH. reflexivity.
  - destruct (Py.readlines s) as [|l ls].
    + simpl in IH. subst s. reflexivity.
    + rewrite concat_cons in IH. rewrite concat_cons.
      change (String c (l +:+ String.concat "" ls) = String c s).
      rewrite IH. reflexivity.
Qed.

Lemma readlines_nil (s : string) : Py.readlines s = [] → s = "".
Proof.
  destruct s as [|c s]; [reflexivity|]. cbn [Py.readlines].
  destruct (Ascii.eqb c _); [discriminate|].
  destruct (Py.readlines s); discriminate.
Qed.

(** The loop writes the chunks of [written_chunks]. *)
Lemma write_lines_chunks (path delimiter marker : string)
    (lines : list string) :
  ∀ i found w,
    write_lines path delimiter marker i found lines w
    = write_all path (written_chunks delimiter marker i found lines) w.
Proof.
  induction lines as [|line rest IH]; intros i found w; [reflexivity|].
  cbn [write_lines written_chunks].
  destruct ((0 <? i)%nat && String.eqb (Py.strip line) delimiter
            && negb found); cbn [write_all]; rewrite !bind_run;
    destruct (f_write path _ w) as [[[]|e] w1]; try reflexivity.
  - rewrite !bind_run.
    destruct (f_write path line w1) as [[[]|e] w2]; [apply IH | reflexivity].
  - apply IH.
Qed.

Lemma written_chunks_found (delimiter marker : string) (lines : list string) :
  ∀ i, written_chunks delimiter marker i true lines = lines.
Proof.
  induction lines as [|line rest IH]; intros i; [reflexivity|].
  cbn [written_chunks]. rewrite andb_false_r, IH. reflexivity.
Qed.

Lemma written_chunks_rest (delimiter marker : string) (rest : list string) :
  ∀ i, (0 < i)%nat →
    written_chunks delimiter marker i false rest
    = match find_first (λ line, String.eqb (Py.strip line) delimiter) rest with
      | Some k => List.firstn k rest ++ [marker] ++ List.skipn k rest
      | None => rest
      end.
Proof.
  induction rest as [|line rest IH]; intros i Hi; [reflexivity|].
  cbn [written_chunks find_first].
  assert ((0 <? i)%nat = true) as -> by (apply Nat.ltb_lt; exact Hi).
  rewrite andb_true_r. simpl andb.
  destruct (String.eqb (Py.strip line) delimiter).
  - rewrite written_chunks_found. reflexivity.
  - rewrite IH by lia.
    destruct (find_first _ rest) as [k|]; reflexivity.
Qed.

(** The chunks the code writes are the lines the specification names. *)
Lemma written_chunks_spec (first : string) (rest : list string) :
  written_chunks (closing_delimiter first) (marker_line first) 0 false
    (first :: rest)
  = spec_marked_lines (first :: rest).
Proof.
  cbn [written_chunks]. simpl andb.
  rewrite written_chunks_rest by lia.
  unfold spec_marked_lines, closing_index.
  destruct (find_first _ rest) as [k|]; reflexivity.
Qed.

(** Reading translates the line ends: the text read is empty only
    for an empty file, it holds no carriage return, and it is the
    stored text when that holds none. *)
Lemma universal_newlines_nil (s : string) :
  Py.universal_newlines s = "" → s = "".
Proof.
  destruct s as [|c s]; [reflexivity|]. cbn [Py.universal_newlines].
  destruct (Ascii.eqb c (ascii_of_nat 13)); discriminate.
Qed.

Lemma universal_newlines_no_cr (s : string) :
  has_char (ascii_of_nat 13) s = false → Py.universal_newlines s = s.
Proof.
  induction s as [|c s IH]; [reflexivity|].
  cbn [has_char Py.universal_newlines]. intros H.
  apply orb_false_iff in H as [Hc Hs]. rewrite Hc, (IH Hs). reflexivity.
Qed.

(** Writes that meet no fault append every chunk. *)
Lemma write_all_no_fault (path : string) (chunks : list string) :
  ∀ w cur,
    fault w = NoFault → files w !! path = Some cur →
    write_all path chunks w
    = (Ok tt,
       with_files w (<[path := cur +:+ String.concat "" chunks]> (files w))
         NoFault).
Proof.
  induction chunks as [|c cs IH]; intros w cur Hf Hcur.
  - cbn. rewrite str_app_nil_r, insert_id by exact Hcur.
    destruct w; simpl in *; subst; reflexivity.
  - cbn [write_all]. rewrite bind_run. unfold f_write at 1.
    rewrite Hf, Hcur. cbn [default].
    rewrite (IH _ (cur +:+ c)); [| reflexivity | apply lookup_insert_eq].
    rewrite concat_cons, <- str_app_assoc.
    unfold with_files; cbn [files fault trace].
    rewrite insert_insert_eq. reflexivity.
Qed.

(** Writes that meet a fault at chunk [n] leave the chunks before it. *)
Lemma write_all_fault (path : string) (chunks : list string) :
  ∀ n w cur,
    fault w = WriteFails n → files w !! path = Some cur →
    (n < length chunks)%nat →
    write_all path chunks w
    = (Raise OSError,
       with_files w
         (<[path := cur +:+ String.concat "" (List.firstn n chunks)]> (files w))
         NoFault).
Proof.
  induction chunks as [|c cs IH]; intros n w cur Hf Hcur Hn;
    [simpl in Hn; lia|].
  cbn [write_all]. rewrite bind_run. unfold f_write at 1.
  rewrite Hf, Hcur. cbn [default].
  destruct n as [|n].
  - cbn. rewrite str_app_nil_r, insert_id by exact Hcur. reflexivity.
  - rewrite (IH n _ (cur +:+ c));
      [| reflexivity | apply lookup_insert_eq | simpl in Hn; lia].
    cbn [List.firstn]. rewrite concat_cons, <- str_app_assoc.
    unfold with_files; cbn [files fault trace].
    rewrite insert_insert_eq. reflexivity.
Qed.

(** How a call of [mark_syndicated] runs, case by case. *)
Lemma mark_syndicated_run (item : manifest_item) (w : world) :
  let w0 := with_event w (Call_mark_syndicated (filepath item)) in
  let failed w' := (Ok tt, with_event w' (Log ERROR ErrorMarking)) in
  mark_syndicated item w
  = match files w !! filepath item with
    | None => failed w0
    | Some text =>
        match Py.readlines (Py.universal_newlines text), fault w with
        | [], _ => failed w0
        | _ :: _, OpenFails => failed w0
        | lines, _ =>
            match write_all (filepath item) (spec_marked_lines lines)
                    (with_files w0 (<[filepath item := ""]> (files w))
                       (fault w)) with
            | (Ok _, w') =>
                (Ok tt,
                 with_event w' (Log INFO (UpdatedStatus (filepath item))))
            | (Raise _, w') => failed w'
            end
        end
    end.
Proof.
  unfold mark_syndicated. rewrite bind_run. cbn [emit].
  unfold try_except. rewrite bind_run. unfold read_text at 1. cbn [files with_event].
  destruct (files w !! filepath item) as [text|]; [|reflexivity].
  rewrite bind_lift.
  destruct (Py.readlines (Py.universal_newlines text)) as [|first rest] eqn:Hl;
    [reflexivity|].
  rewrite bind_run. unfold open_w at 1. cbn [fault files with_event].
  fold (closing_delimiter first) (marker_line first).
  destruct (fault w) eqn:Hf; try reflexivity;
    rewrite bind_run, write_lines_chunks, written_chunks_spec;
    unfold with_files, with_event; cbn [files fault trace];
    match goal with
    | |- context [write_all ?p ?c ?w1] => destruct (write_all p c w1) as [[[]|e] w2]
    end; reflexivity.
Qed.

(** What [closing_index] finds: a line after the opening one whose
    stripped text is the closing delimiter, with no such line between
    the opening one and it. *)
Lemma find_first_spec (p : string → bool) (l : list string) (k : nat) :
  find_first p l = Some k →
  (∃ x, l !! k = Some x ∧ p x = true)
  ∧ ∀ j x, (j < k)%nat → l !! j = Some x → p x = false.
Proof.
  revert k. induction l as [|y l IH]; intros k; [discriminate|].
  cbn [find_first]. destruct (p y) eqn:Hy.
  - intros [= <-]. split; [exists y; auto | intros j x Hj; lia].
  - destruct (find_first p l) as [k'|]; [|discriminate].
    intros [= <-]. destruct (IH k' eq_refl) as [Hx Hlt]. split; [exact Hx|].
    intros [|j] x Hj; simpl.
    + intros [= <-]. exact Hy.
    + apply Hlt. lia.
Qed.

Lemma closing_index_spec (lines : list string) (k : nat) :
  closing_index lines = Some k →
  (0 < k)%nat
  ∧ (∃ line, lines !! k = Some line
             ∧ Py.strip line = closing_delimiter (List.hd "" lines))
  ∧ ∀ j line, (0 < j < k)%nat → lines !! j = Some line →
              Py.strip line ≠ closing_delimiter (List.hd "" lines).
Proof.
  destruct lines as [|first rest]; [discriminate|]. cbn [closing_index].
  destruct (find_first _ rest) as [k'|] eqn:Hk; [|discriminate].
  intros [= <-]. apply find_first_spec in Hk as [(x & Hx & Hp) Hlt].
  split; [lia|]. split.
  - exists x. split; [exact Hx|]. apply String.eqb_eq. exact Hp.
  - intros [|j] line Hj; [lia|]. simpl. intros Hline.
    apply String.eqb_neq. eapply Hlt; [|exact Hline]. lia.
Qed.

Lemma str_length_app (a b : string) :
  String.length (a +:+ b) = (String.length a + String.length b)%nat.
Proof.
  induction a as [|c a IH]; [reflexivity|].
  change (String c a +:+ b) with (String c (a +:+ b)). simpl. rewrite IH.
  reflexivity.
Qed.

(** C5 as stated fails: the file is read with universal newlines and
    written with [\n], so a file whose line ends with [\r\n] comes
    back one character shorter, although nothing was to be inserted. *)
Lemma crlf_line_ends_are_rewritten : ¬ rewrite_only_inserts crlf_item crlf_world.
Proof.
  intros H.
  destruct (H _ eq_refl eq_refl) as (before & marker & after & Htext & Hfiles).
  apply (f_equal (λ fs : gmap string string, fs !! "dos.md")) in Hfiles.
  cbn [filepath crlf_item] in Hfiles. rewrite lookup_insert_eq in Hfiles.
  vm_compute in Hfiles. injection Hfiles as Hnew.
  apply (f_equal String.length) in Htext, Hnew.
  rewrite !str_length_app in Htext, Hnew. cbn in Htext, Hnew. lia.
Qed.

(** C5, amended: on a readable file and with no storage fault,
    [mark_syndicated] writes back the lines it read, which are the
    lines of the file with every [\r\n] and lone [\r] turned into
    [\n], in order, with one marker line put right before the first
    line of index above 0 whose stripped text is the closing delimiter
    that the first line determines, and no other file changes;
    without such a line the file holds the text as read and no marker.
    For a file without carriage return the lines read are the lines
    stored, byte for byte, and without closing delimiter the files are
    as before. *)
Theorem mark_syndicated_inserts_one_marker
    (item : manifest_item) (w : world) (text : string) :
  files w !! filepath item = Some text →
  fault w = NoFault →
  let lines := Py.readlines (Py.universal_newlines text) in
  (∀ k, closing_index lines = Some k →
        files (mark_syndicated item w).2
        = <[filepath item :=
              String.concat ""
                (List.firstn k lines ++ [marker_line (List.hd "" lines)]
                 ++ List.skipn k lines)]> (files w))
  ∧ (closing_index lines = None →
     files (mark_syndicated item w).2
     = <[filepath item := Py.universal_newlines text]> (files w))
  ∧ (has_char (ascii_of_nat 13) text = false →
     String.concat "" lines = text
     ∧ (closing_index lines = None →
        files (mark_syndicated item w).2 = files w)).
Proof.
  intros Htext Hfault lines.
  assert (Hlines : String.concat "" lines = Py.universal_newlines text)
    by apply concat_readlines.
  assert (Hrun : files (mark_syndicated item w).2
                 = <[filepath item := String.concat "" (spec_marked_lines lines)]>
                     (files w)).
  { rewrite mark_syndicated_run, Htext, Hfault. fold lines.
    destruct lines as [|first rest] eqn:Hl.
    - cbn [snd with_event files]. symmetry.
      change (String.concat "" (spec_marked_lines [])) with "".
      apply insert_id. rewrite Htext. f_equal.
      apply universal_newlines_nil. symmetry. exact Hlines.
    - cbv zeta.
      rewrite (write_all_no_fault _ _ _ "");
        [| reflexivity | apply lookup_insert_eq].
      cbn [with_event with_files files snd].
      rewrite insert_insert_eq. reflexivity. }
  rewrite Hrun. unfold spec_marked_lines.
  split; [|split].
  - intros k ->. reflexivity.
  - intros ->. rewrite Hlines. reflexivity.
  - intros Hcr. rewrite Hlines, (universal_newlines_no_cr text Hcr).
    split; [reflexivity|]. intros ->.
    rewrite Hlines, (universal_newlines_no_cr text Hcr).
    apply insert_id. exact Htext.
Qed.

Lemma mark_syndicated_inserts_one_marker_witness :
  files (mark_syndicated sample_item (sample_world NoFault)).2
  = {[ "content/post.md" :=
         "---" +:+ Py.nl +:+ "title: x" +:+ Py.nl
         +:+ "syndicated: true" +:+ Py.nl
         +:+ "---" +:+ Py.nl +:+ "body" +:+ Py.nl ]}.
Proof.
  destruct (mark_syndicated_inserts_one_marker sample_item
              (sample_world NoFault) sample_text eq_refl eq_refl) as [H _].
  rewrite (H 2%nat eq_refl). apply insert_singleton_eq.
Defined.

(** C6 as stated fails: the second write to the sample post fails, the
    error is caught and logged, and the file is left with its first
    line only. *)
Lemma write_failure_truncates_file :
  ¬ failure_leaves_file_unchanged sample_item (sample_world (WriteFails 1)).
Proof.
  unfold failure_leaves_file_unchanged, failure_caught.
  intros H. destruct (H eq_refl) as [_ Hfiles].
  vm_compute in Hfiles. discriminate Hfiles.
Qed.

(** C6, amended: [mark_syndicated] catches and logs every failure and
    returns.  A failure before the file is open for writing (the file
    cannot be read, is empty, or cannot be opened for writing) leaves
    all files as they were; a write that fails once the file is open
    leaves the file holding only the chunks written before it. *)
Theorem mark_syndicated_failure_is_caught
    (item : manifest_item) (w : world) :
  let out := mark_syndicated item w in
  let failure_logged :=
    trace out.2
    = trace w ++ [Call_mark_syndicated (filepath item);
                  Log ERROR ErrorMarking] in
  out.1 = Ok tt
  ∧ (files w !! filepath item = None
     ∨ files w !! filepath item = Some ""
     ∨ fault w = OpenFails →
     failure_logged ∧ files out.2 = files w)
  ∧ (∀ text n,
       files w !! filepath item = Some text → text ≠ "" →
       fault w = WriteFails n →
       (n < length (spec_marked_lines
                      (Py.readlines (Py.universal_newlines text))))%nat →
       failure_logged
       ∧ files out.2
         = <[filepath item :=
               String.concat ""
                 (List.firstn n (spec_marked_lines
                         (Py.readlines (Py.universal_newlines text))))]>
             (files w)).
Proof.
  intros out failure_logged. subst out failure_logged.
  split; [apply mark_syndicated_returns|].
  rewrite mark_syndicated_run. cbv zeta.
  split.
  - intros Hcase.
    destruct (files w !! filepath item) as [text|] eqn:Htext.
    + destruct Hcase as [?|[[= ->]| ->]]; [discriminate| |].
      * cbn. rewrite <- List.app_assoc. auto.
      * destruct (Py.readlines (Py.universal_newlines text)); cbn;
          rewrite <- List.app_assoc; auto.
    + cbn. rewrite <- List.app_assoc. auto.
  - intros text n Htext Hne Hfault Hn. rewrite Htext, Hfault.
    destruct (Py.readlines (Py.universal_newlines text))
      as [|first rest] eqn:Hl.
    { apply readlines_nil, universal_newlines_nil in Hl. contradiction. }
    rewrite (write_all_fault _ _ n _ "");
      [| reflexivity | apply lookup_insert_eq | exact Hn].
    cbn [with_event with_files files trace snd].
    rewrite insert_insert_eq, <- List.app_assoc. auto.
Qed.

(** ** The scanner *)

Lemma parse_frontmatter_run (h : host) (content : string) (w : world) :
  ∃ w', parse_frontmatter h content w = (Ok (parsed_header h content), w').
Proof.
  unfold parse_frontmatter, parsed_header, try_except.
  destruct (Py.startswith content "+++").
  - unfold lift. destruct (toml_loads h _); eexists; reflexivity.
  - destruct (Py.startswith content "---").
    + unfold lift. destruct (yaml_safe_load h _); eexists; reflexivity.
    + eexists; reflexivity.
Qed.

(** What the loop body leaves in the manifest. *)
Lemma scan_file_result (h : host) (w : world) (manifest : list manifest_item)
    (root file : string) :
  (scan_file h manifest root file w).1
  = Ok (if Py.endswith file ".md" then
          match files w !! path_join root file with
          | Some content =>
              let fm := parsed_header h (Py.universal_newlines content) in
              if listed_for_syndication fm
              then manifest
                   ++ [{| frontmatter := fm;
                          filepath := path_join root file |}]
              else manifest
          | None => manifest
          end
        else manifest).
Proof.
  unfold scan_file. destruct (Py.endswith file ".md"); [|reflexivity].
  unfold try_except. rewrite bind_run. unfold read_text at 1.
  destruct (files w !! path_join root file) as [content|]; [|reflexivity].
  rewrite bind_run.
  destruct (parse_frontmatter_run h (Py.universal_newlines content) w)
    as (w1 & ->).
  rewrite bind_lift. cbv zeta.
  destruct (parsed_header h (Py.universal_newlines content))
    as [|b|z|s|l|d|t]; cbn [truthy];
    try reflexivity.
  - destruct b; reflexivity.
  - destruct (negb (z =? 0)); reflexivity.
  - destruct (negb (String.eqb s "")); [|reflexivity]. cbn [py_in].
    destruct (Py.contains s "syndicate_to"); reflexivity.
  - destruct l as [|x l]; [reflexivity|]. cbn [py_in].
    destruct (existsb _ (x :: l)); reflexivity.
  - destruct d as [|kv d]; [reflexivity|]. cbn [py_in listed_for_syndication].
    destruct (dict_has (kv :: d) "syndicate_to"); [|reflexivity].
    rewrite bind_lift. cbn [py_get andb].
    destruct (truthy (dict_get (kv :: d) "syndicated" (VBool false)));
      [reflexivity|].
    rewrite bind_lift. cbn [negb andb].
    destruct (truthy (dict_get (kv :: d) "microblog_content" VNone));
      reflexivity.
  - destruct t; reflexivity.
Qed.

Lemma snoc_neq {A} (l : list A) (x : A) : l ++ [x] ≠ l.
Proof.
  intros H. apply (f_equal length) in H. rewrite length_app in H.
  simpl in H. lia.
Qed.

Lemma listed_header_iff (h : host) (w : world) (path : string) :
  listed_header h w path
  ↔ ∃ content, files w !! path = Some content
               ∧ listed_for_syndication
                   (parsed_header h (Py.universal_newlines content)) = true.
Proof.
  unfold listed_header, listed_for_syndication. split.
  - intros (content & d & Hc & Hp & H1 & H2 & H3). exists content.
    rewrite Hp, H1, H2, H3. auto.
  - intros (content & Hc & H). exists content.
    destruct (parsed_header h (Py.universal_newlines content))
      as [| | | | |d|]; try discriminate.
    exists d. apply andb_prop in H as [H H2]. apply andb_prop in H as [H1 H3].
    apply negb_true_iff in H3. auto.
Qed.

(** C4 as stated fails: a header whose target list is empty still has
    the key [syndicate_to], so the file is appended. *)
Lemma empty_target_list_is_appended :
  ¬ appended_iff_eligible sample_host untargeted_world [] "content" "note.md".
Proof.
  intros [H _].
  destruct H as (content & Hc & He).
  - eexists. rewrite scan_file_result. reflexivity.
  - vm_compute in Hc. injection Hc as <-. vm_compute in He. discriminate He.
Qed.

(** C4, amended: a visited [.md] file is appended to the manifest
    exactly when it can be read and its header parses to a mapping
    that has the key [syndicate_to] (whatever targets it lists, even
    none), a true [microblog_content] value and no true [syndicated]
    value; any other file leaves the manifest as it was. *)
Theorem scan_file_appends_iff_listed
    (h : host) (w : world) (manifest : list manifest_item)
    (root file : string) :
  Py.endswith file ".md" = true →
  (appended h w manifest root file
   ↔ listed_header h w (path_join root file))
  ∧ (¬ listed_header h w (path_join root file) →
     (scan_file h manifest root file w).1 = Ok manifest).
Proof.
  intros Hmd. rewrite listed_header_iff. unfold appended.
  rewrite scan_file_result, Hmd.
  destruct (files w !! path_join root file) as [content|].
  - cbv zeta.
    destruct (listed_for_syndication
                (parsed_header h (Py.universal_newlines content))) eqn:Hl.
    + split; [|intros []; eauto].
      split; [eauto|]. intros _. eexists. reflexivity.
    + split; [|reflexivity].
      split.
      * intros (item & [= E]). symmetry in E. apply snoc_neq in E as [].
      * intros (c & [= <-] & E). congruence.
  - split; [|reflexivity].
    split.
    + intros (item & [= E]). symmetry in E. apply snoc_neq in E as [].
    + intros (c & ? & _). discriminate.
Qed.

Lemma scan_file_appends_iff_listed_witness :
  (appended sample_host untargeted_world [] "content" "note.md"
   ↔ listed_header sample_host untargeted_world
       (path_join "content" "note.md"))
  ∧ (¬ listed_header sample_host untargeted_world
         (path_join "content" "note.md") →
     (scan_file sample_host [] "content" "note.md" untargeted_world).1
     = Ok []).
Proof.
  apply (scan_file_appends_iff_listed sample_host untargeted_world []
           "content" "note.md").
  reflexivity.
Defined.

(** ** Splitting and joining *)

Lemma split_nonempty (sep : ascii) (s : string) : Py.split sep s ≠ [].
Proof.
  destruct s as [|c s]; simpl; [discriminate|].
  destruct (Ascii.eqb c sep); [discriminate|].
  destruct (Py.split sep s); discriminate.
Qed.

Lemma split_app_sep (sep : ascii) (a b : string) :
  Py.split sep (a +:+ String sep b) = Py.split sep a ++ Py.split sep b.
Proof.
  induction a as [|c a IH].
  - change ("" +:+ String sep b) with (String sep b).
    cbn [Py.split]. rewrite Ascii.eqb_refl. reflexivity.
  - change (String c a +:+ String sep b) with (String c (a +:+ String sep b)).
    cbn [Py.split]. rewrite IH.
    destruct (Ascii.eqb c sep); [reflexivity|].
    pose proof (split_nonempty sep a) as Hne.
    destruct (Py.split sep a) as [|p ps]; [contradiction | reflexivity].
Qed.

Lemma split_no_sep (sep : ascii) (s : string) :
  has_char sep s = false → Py.split sep s = [s].
Proof.
  induction s as [|c s IH]; [reflexivity|]. cbn [has_char Py.split].
  intros H. apply orb_false_iff in H as [Hc Hs].
  rewrite Hc, (IH Hs). reflexivity.
Qed.

Lemma split_parts_no_sep (sep : ascii) (s seg : string) :
  In seg (Py.split sep s) → has_char sep seg = false.
Proof.
  revert seg. induction s as [|c s IH]; intros seg.
  - intros [<-|[]]. reflexivity.
  - cbn [Py.split]. destruct (Ascii.eqb c sep) eqn:Hc.
    + intros [<-|H]; [reflexivity | apply IH; exact H].
    + pose proof (split_nonempty sep s) as Hne.
      destruct (Py.split sep s) as [|p ps]; [contradiction|].
      intros [<-|H].
      * cbn [has_char]. rewrite Hc. apply IH. left. reflexivity.
      * apply IH. right. exact H.
Qed.

Lemma join_cons (sep x : string) (xs : list string) :
  xs ≠ [] → Py.join sep (x :: xs) = x +:+ sep +:+ Py.join sep xs.
Proof. destruct xs; [contradiction | reflexivity]. Qed.

(** Every segment of a joined path comes from a segment of one of the
    joined parts. *)
Lemma split_join_parts (sep : ascii) (segs : list string) (x : string) :
  In x (Py.split sep (Py.join (String sep "") segs)) →
  x = "" ∨ ∃ seg, In seg segs ∧ In x (Py.split sep seg).
Proof.
  induction segs as [|seg segs IH].
  - intros [<-|[]]. left. reflexivity.
  - destruct segs as [|seg' segs].
    + intros H. right. exists seg. split; [left; reflexivity | exact H].
    + rewrite join_cons by discriminate.
      change (seg +:+ String sep "" +:+ Py.join (String sep "") (seg' :: segs))
        with (seg +:+ String sep (Py.join (String sep "") (seg' :: segs))).
      rewrite split_app_sep. intros H. apply in_app_iff in H as [H|H].
      * right. exists seg. split; [left; reflexivity | exact H].
      * destruct (IH H) as [->|(s & Hs & Hx)]; [left; reflexivity|].
        right. exists s. split; [right; exact Hs | exact Hx].
Qed.

(** ** [get_post_url] *)

Lemma site_root_ok (h : host) : site_root (global_scope h) = Ok (root_of h).
Proof.
  unfold site_root, root_of.
  change (load_global (global_scope h) "BASE_URL")
    with (Ok (g_of_env (getenv h "BASE_URL"))).
  destruct (getenv h "BASE_URL") as [s|]; [|reflexivity].
  cbn. destruct (String.eqb s ""); reflexivity.
Qed.

Lemma all_str_snoc (l : list string) (v : pyval) :
  all_str (List.map VStr l ++ [v])
  = match v with
    | VStr s => Ok (l ++ [s])
    | _ => Raise TypeError
    end.
Proof.
  induction l as [|x l IH]; [destruct v; reflexivity|].
  cbn [List.map app all_str]. rewrite IH. destruct v; reflexivity.
Qed.

Lemma all_str_map (l : list string) : all_str (List.map VStr l) = Ok l.
Proof.
  induction l as [|x l IH]; [reflexivity|].
  cbn [List.map all_str]. rewrite IH. reflexivity.
Qed.

Lemma removelast_map_VStr (l : list string) :
  removelast (List.map VStr l) = List.map VStr (removelast l).
Proof.
  induction l as [|x l IH]; [reflexivity|].
  destruct l as [|y l]; [reflexivity|].
  change (VStr x :: removelast (List.map VStr (y :: l))
          = VStr x :: List.map VStr (removelast (y :: l))).
  rewrite IH. reflexivity.
Qed.

(** What [get_post_url] returns, case by case. *)
Lemma get_post_url_run (h : host) (filepath : string) (d : dict) :
  get_post_url (global_scope h) filepath (VDict d)
  = let dirs := post_dirs filepath in
    let slug := dict_get d "slug" VNone in
    if is_leaf_bundle filepath then
      if truthy slug then
        match dirs, slug with
        | [], _ => Raise IndexError
        | _, VStr s => Ok (url_of h (removelast dirs ++ [s]))
        | _, _ => Raise TypeError
        end
      else Ok (url_of h dirs)
    else
      match closing_part filepath d with
      | VStr s => Ok (url_of h (dirs ++ [s]))
      | _ => Raise TypeError
      end.
Proof.
  unfold get_post_url, is_leaf_bundle, closing_part, url_of.
  rewrite site_root_ok. cbn [mbind result_bind py_get].
  destruct (String.eqb (OsPath.basename filepath) "index.md"
            || String.eqb (OsPath.basename filepath) "_index.md").
  - destruct (truthy (dict_get d "slug" VNone)).
    + destruct (post_dirs filepath) as [|x l] eqn:Hl;
        [destruct (dict_get d "slug" VNone); reflexivity|].
      unfold set_last. cbn [List.map]. 
      change (VStr x :: List.map VStr l) with (List.map VStr (x :: l)).
      unfold py_join. cbn [mbind result_bind].
      rewrite removelast_map_VStr, all_str_snoc.
      destruct (dict_get d "slug" VNone); reflexivity.
    + unfold py_join. cbn [mbind result_bind].
      rewrite all_str_map. reflexivity.
  - unfold py_join.
    destruct (truthy (dict_get d "slug" VNone)); cbn [negb mbind result_bind];
      rewrite all_str_snoc; [destruct (dict_get d "slug" VNone)|]; reflexivity.
Qed.

Lemma In_firstn {A} (n : nat) (l : list A) (x : A) :
  In x (List.firstn n l) → In x l.
Proof.
  revert n. induction l as [|y l IH]; intros [|n]; simpl; try tauto.
  intros [->|H]; [left; reflexivity | right; eapply IH; exact H].
Qed.

Lemma In_skipn {A} (n : nat) (l : list A) (x : A) :
  In x (List.skipn n l) → In x l.
Proof.
  revert n. induction l as [|y l IH]; intros [|n]; simpl; try tauto.
  intros H. right. eapply IH; exact H.
Qed.

(** No directory of the URL holds a slash. *)
Lemma post_dirs_no_slash (filepath seg : string) :
  In seg (post_dirs filepath) → has_char "/" seg = false.
Proof.
  unfold post_dirs, Py.list_slice.
  destruct (Py.index_of "content" (path_parts filepath)).
  - intros H. apply In_skipn, In_firstn in H.
    eapply split_parts_no_sep. exact H.
  - intros [<-|[]]. reflexivity.
Qed.

Lemma last_app_nonempty {A} (l1 l2 : list A) (d : A) :
  l2 ≠ [] → List.last (l1 ++ l2) d = List.last l2 d.
Proof.
  intros Hne. rewrite (app_removelast_last d Hne), List.app_assoc, !last_last.
  reflexivity.
Qed.

Lemma last_In {A} (l : list A) (d : A) : l ≠ [] → In (List.last l d) l.
Proof.
  induction l as [|x l IH]; [contradiction|]. intros _.
  destruct l as [|y l]; [left; reflexivity|].
  right. apply IH. discriminate.
Qed.

Lemma last_url_segment_url_of (h : host) (segs : list string) :
  last_url_segment (url_of h segs)
  = List.last (Py.split "/" (Py.join "/" segs)) "".
Proof.
  unfold last_url_segment, url_of.
  change (root_of h +:+ "/" +:+ Py.join "/" segs +:+ "/")
    with (root_of h +:+ String "/" (Py.join "/" segs +:+ String "/" "")).
  rewrite !split_app_sep.
  change (Py.split "/" "") with [""].
  rewrite List.app_assoc, removelast_last.
  apply last_app_nonempty, split_nonempty.
Qed.

Lemma last_split_join (segs : list string) :
  segs ≠ [] → has_char "/" (List.last segs "") = false →
  List.last (Py.split "/" (Py.join "/" segs)) "" = List.last segs "".
Proof.
  induction segs as [|s segs IH]; [contradiction|]. intros _ Hlast.
  destruct segs as [|s' segs].
  - cbn in *. rewrite (split_no_sep _ _ Hlast). reflexivity.
  - rewrite join_cons by discriminate.
    change (s +:+ "/" +:+ Py.join "/" (s' :: segs))
      with (s +:+ String "/" (Py.join "/" (s' :: segs))).
    rewrite split_app_sep, last_app_nonempty by apply split_nonempty.
    apply IH; [discriminate | exact Hlast].
Qed.

(** The first occurrence that [index] finds splits the list. *)
Lemma index_of_split (x : string) (l : list string) (i : nat) :
  Py.index_of x l = Some i →
  ∃ pre rest, l = pre ++ x :: rest ∧ ¬ In x pre ∧ length pre = i.
Proof.
  revert i. induction l as [|y l IH]; intros i; [discriminate|].
  cbn [Py.index_of]. destruct (String.eqb y x) eqn:Hy.
  - intros [= <-]. apply String.eqb_eq in Hy as ->.
    exists [], l. auto.
  - destruct (Py.index_of x l) as [j|]; [|discriminate].
    intros [= <-]. destruct (IH j eq_refl) as (pre & rest & -> & Hn & Hlen).
    exists (y :: pre), rest. split; [reflexivity|]. split.
    + intros [->|H]; [|exact (Hn H)].
      rewrite String.eqb_refl in Hy. discriminate.
    + simpl. rewrite Hlen. reflexivity.
Qed.

Lemma index_of_In (x : string) (l : list string) :
  In x l → ∃ i, Py.index_of x l = Some i.
Proof.
  induction l as [|y l IH]; [intros []|]. cbn [Py.index_of].
  destruct (String.eqb y x) eqn:Hy; [eauto|].
  intros [->|H]; [rewrite String.eqb_refl in Hy; discriminate|].
  destruct (IH H) as (i & ->). eauto.
Qed.

(** [l[i+1:-1]] where [l[i]] is [x]: what follows [x], less the last. *)
Lemma list_slice_after (pre rest : list string) (x : string) :
  Py.list_slice (pre ++ x :: rest) (Z.of_nat (length pre) + 1) (-1)
  = removelast rest.
Proof.
  unfold Py.list_slice, Py.clamp.
  set (l := pre ++ x :: rest).
  assert (Hlen : length l = (length pre + 1 + length rest)%nat).
  { unfold l. rewrite length_app. simpl. lia. }
  replace (-1 <? 0) with true by reflexivity.
  replace (Z.of_nat (length pre) + 1 <? 0) with false by lia.
  replace (Z.to_nat (Z.max 0 (-1 + Z.of_nat (length l))))
    with (Nat.pred (length l)) by lia.
  replace (Z.to_nat (Z.min (Z.of_nat (length pre) + 1) (Z.of_nat (length l))))
    with (length (pre ++ [x])) by (rewrite length_app; simpl; lia).
  rewrite <- removelast_firstn_len. unfold l.
  replace (pre ++ x :: rest) with ((pre ++ [x]) ++ rest)
    by (rewrite <- List.app_assoc; reflexivity).
  destruct rest as [|r rest].
  - rewrite app_nil_r, removelast_last. apply drop_ge.
    rewrite length_app. simpl. lia.
  - rewrite removelast_app by discriminate. apply drop_app_length.
Qed.

(** With a ["content"] segment, the directories of the URL are the
    ones after the first such segment and before the file name. *)
Lemma post_dirs_after_content (filepath : string) :
  In "content" (path_parts filepath) →
  ∃ pre rest,
    path_parts filepath = pre ++ "content" :: rest
    ∧ ¬ In "content" pre
    ∧ post_dirs filepath = removelast rest.
Proof.
  intros Hc. unfold post_dirs.
  destruct (index_of_In _ _ Hc) as (i & Hi). rewrite Hi.
  destruct (index_of_split _ _ _ Hi) as (pre & rest & E & Hn & <-).
  exists pre, rest. rewrite E. split; [reflexivity|]. split; [exact Hn|].
  apply list_slice_after.
Qed.

(** C8 as stated fails: a leaf bundle outside any ["content"] folder
    gets the directory ["posts"], not the directory it lies in. *)
Lemma leaf_outside_content_gets_posts :
  ¬ leaf_url_ends_with_slug_or_dir (global_scope sample_host)
      "blog/foo/index.md" [].
Proof.
  intros H. destruct (H eq_refl) as (url & Hu & Hl).
  vm_compute in Hu. injection Hu as <-.
  vm_compute in Hl. discriminate Hl.
Qed.

(** C8, amended: for a file named [index.md] or [_index.md], with
    [dirs] the segments between the first ["content"] segment and the
    file name, or [["posts"]] when the path has no ["content"]
    segment: a slug that is a non-empty string replaces the last of
    [dirs], when there is one, and is the last segment of the URL;
    without a slug the URL is [dirs] joined, and its last segment is
    the last of [dirs], which is the directory the file lies in when
    the path has a ["content"] segment.  [content/blog/index.md] with
    slug [custom] gives [root/custom/]. *)
Theorem leaf_bundle_url (h : host) (filepath : string) (d : dict) :
  is_leaf_bundle filepath = true →
  let dirs := post_dirs filepath in
  let slug := dict_get d "slug" VNone in
  (∀ s, slug = VStr s → s ≠ "" → dirs ≠ [] →
        get_post_url (global_scope h) filepath (VDict d)
        = Ok (url_of h (removelast dirs ++ [s]))
        ∧ (has_char "/" s = false →
           last_url_segment (url_of h (removelast dirs ++ [s])) = s))
  ∧ (truthy slug = false →
     get_post_url (global_scope h) filepath (VDict d) = Ok (url_of h dirs)
     ∧ (dirs ≠ [] → last_url_segment (url_of h dirs) = List.last dirs ""))
  ∧ (¬ In "content" (path_parts filepath) → dirs = ["posts"])
  ∧ (In "content" (path_parts filepath) → dirs ≠ [] →
     List.last dirs "" = last_dir_segment filepath)
  ∧ get_post_url (global_scope h) "content/blog/index.md"
      (VDict (slugged "custom"))
    = Ok (root_of h +:+ "/custom/").
Proof.
  intros Hleaf dirs slug. rewrite get_post_url_run, Hleaf. cbv zeta.
  fold dirs slug. split; [|split; [|split; [|split]]].
  - intros s Hs Hne Hd. rewrite Hs. cbn [truthy].
    assert (String.eqb s "" = false) as -> by (apply String.eqb_neq; exact Hne).
    cbn [negb]. split.
    + destruct dirs; [contradiction | reflexivity].
    + intros Hslash. rewrite last_url_segment_url_of, last_split_join.
      * apply last_last.
      * intros E. apply app_eq_nil in E as [_ E]. discriminate E.
      * rewrite last_last. exact Hslash.
  - intros ->. split; [reflexivity|].
    intros Hd. rewrite last_url_segment_url_of. apply last_split_join; [exact Hd|].
    apply (post_dirs_no_slash filepath), last_In. exact Hd.
  - intros Hc. subst dirs. unfold post_dirs.
    destruct (Py.index_of "content" (path_parts filepath)) as [i|] eqn:Hi;
      [|reflexivity].
    exfalso. apply Hc. clear Hc. revert i Hi.
    induction (path_parts filepath) as [|y l IH]; intros i; [discriminate|].
    cbn [Py.index_of]. destruct (String.eqb y "content") eqn:Hy.
    + intros _. left. apply String.eqb_eq. exact Hy.
    + destruct (Py.index_of "content" l); [|discriminate].
      intros _. right. eapply IH. reflexivity.
  - intros Hc Hd. subst dirs. unfold last_dir_segment.
    destruct (post_dirs_after_content filepath Hc) as (pre & rest & E & _ & Ed).
    rewrite Ed in *. rewrite E.
    assert (rest ≠ []) as Hr by (intros ->; apply Hd; reflexivity).
    rewrite removelast_app by discriminate.
    rewrite last_app_nonempty by (destruct rest; [contradiction | discriminate]).
    destruct rest as [|r rest]; [contradiction|].
    change (removelast ("content" :: r :: rest))
      with (["content"] ++ removelast (r :: rest)).
    rewrite last_app_nonempty by exact Hd. reflexivity.
  - rewrite get_post_url_run. reflexivity.
Qed.

Lemma leaf_bundle_url_witness :
  get_post_url (global_scope sample_host) "content/blog/index.md"
    (VDict (slugged "custom"))
  = Ok "https://example.com/custom/"
  ∧ last_url_segment "https://example.com/custom/" = "custom".
Proof.
  destruct (leaf_bundle_url sample_host "content/blog/index.md"
              (slugged "custom") eq_refl) as [H _].
  destruct (H "custom" eq_refl) as [Hurl Hlast];
    [discriminate | discriminate |].
  split; [exact Hurl | exact (Hlast eq_refl)].
Defined.

(** C9 as stated fails: only the first ["content"] segment is left
    out, so a folder named ["content"] below it stays in the URL. *)
Lemma nested_content_folder_stays :
  ¬ url_avoids_content (global_scope sample_host)
      "content/content/post.md" [].
Proof.
  intros H.
  apply (H ltac:(left; reflexivity) "https://example.com/content/post/");
    [reflexivity|].
  vm_compute. tauto.
Qed.

(** C9, amended: when the path has a ["content"] segment, the URL is
    the root, then only segments that come after the first
    ["content"] segment and before the file name, then the slug or
    the file name less its extension; the first ["content"] segment
    and what precedes it never enter the URL.  So the URL path has no
    segment ["content"] as long as no directory after the first
    ["content"] one bears that name and the closing part has no such
    segment.  [content/blog/2025/11/post.md] without a slug gives
    [root/blog/2025/11/post/]. *)
Theorem url_drops_first_content
    (h : host) (filepath : string) (d : dict) (url : string) :
  In "content" (path_parts filepath) →
  get_post_url (global_scope h) filepath (VDict d) = Ok url →
  (∃ pre rest,
     path_parts filepath = pre ++ "content" :: rest
     ∧ ¬ In "content" pre
     ∧ post_dirs filepath = removelast rest)
  ∧ (∃ segs,
       url = url_of h segs
       ∧ (∀ seg, In seg segs →
                 In seg (post_dirs filepath)
                 ∨ closing_part filepath d = VStr seg)
       ∧ (¬ In "content" (post_dirs filepath) →
          (∀ s, closing_part filepath d = VStr s →
                ¬ In "content" (Py.split "/" s)) →
          ¬ In "content" (Py.split "/" (Py.join "/" segs))))
  ∧ get_post_url (global_scope h) "content/blog/2025/11/post.md" (VDict [])
    = Ok (root_of h +:+ "/blog/2025/11/post/").
Proof.
  intros Hc Hurl.
  split; [exact (post_dirs_after_content filepath Hc)|].
  split; [|rewrite get_post_url_run; reflexivity].
  assert (Hsegs : ∃ segs,
            url = url_of h segs
            ∧ ∀ seg, In seg segs →
                     In seg (post_dirs filepath)
                     ∨ closing_part filepath d = VStr seg).
  { rewrite get_post_url_run in Hurl. cbv zeta in Hurl.
    unfold closing_part in *.
    destruct (is_leaf_bundle filepath).
    - destruct (truthy (dict_get d "slug" VNone)).
      + destruct (post_dirs filepath) as [|x l] eqn:Hd; [discriminate|].
        destruct (dict_get d "slug" VNone) as [| | |s| | |]; try discriminate.
        injection Hurl as <-. eexists. split; [reflexivity|].
        intros seg H. apply in_app_iff in H as [H|[<-|[]]].
        * left. rewrite (app_removelast_last "" (l := x :: l)) by discriminate.
          apply in_app_iff. left. exact H.
        * right. reflexivity.
      + injection Hurl as <-. eexists. split; [reflexivity|]. auto.
    - destruct (if truthy (dict_get d "slug" VNone)
                then dict_get d "slug" VNone
                else VStr (OsPath.splitext_root (OsPath.basename filepath)))
        as [| | |s| | |]; try discriminate.
      injection Hurl as <-. eexists. split; [reflexivity|].
      intros seg H. apply in_app_iff in H as [H|[<-|[]]]; auto. }
  destruct Hsegs as (segs & -> & Hfrom).
  exists segs. split; [reflexivity|]. split; [exact Hfrom|].
  intros Hdirs Hclose Hin.
  apply split_join_parts in Hin as [Hin|(seg & Hseg & Hin)]; [discriminate|].
  destruct (Hfrom seg Hseg) as [Hd|Hcl].
  - rewrite (split_no_sep "/" seg) in Hin
      by (eapply post_dirs_no_slash; exact Hd).
    destruct Hin as [->|[]]. exact (Hdirs Hd).
  - exact (Hclose seg Hcl Hin).
Qed.

Lemma url_drops_first_content_witness :
  In "content" (path_parts "content/blog/2025/11/post.md")
  ∧ get_post_url (global_scope sample_host) "content/blog/2025/11/post.md"
      (VDict [])
    = Ok "https://example.com/blog/2025/11/post/"
  ∧ ∃ pre rest,
      path_parts "content/blog/2025/11/post.md" = pre ++ "content" :: rest
      ∧ ¬ In "content" pre
      ∧ post_dirs "content/blog/2025/11/post.md" = removelast rest.
Proof.
  assert (Hc : In "content" (path_parts "content/blog/2025/11/post.md"))
    by (left; reflexivity).
  destruct (url_drops_first_content sample_host
              "content/blog/2025/11/post.md" []
              "https://example.com/blog/2025/11/post/" Hc eq_refl)
    as (Hsplit & _ & Hex).
  split; [exact Hc|]. split; [exact Hex | exact Hsplit].
Defined.


(** * Further properties *)

(** ** What a computation leaves alone *)

Lemma harmless_ret {A} (a : A) : harmless (mret a).
Proof.
  intros w. cbn. repeat split. exists []. rewrite app_nil_r. auto.
Qed.

Lemma harmless_lift {A} (r : result A) : harmless (lift r).
Proof.
  intros w. cbn. repeat split. exists []. rewrite app_nil_r. auto.
Qed.

Lemma harmless_emit (ev : event) : not_a_call ev → harmless (emit ev).
Proof. intros H w. cbn. repeat split. exists [ev]. auto. Qed.

Lemma harmless_read_text (path : string) : harmless (read_text path).
Proof.
  intros w. unfold read_text.
  destruct (files w !! path); cbn; repeat split; exists [];
    rewrite app_nil_r; auto.
Qed.

(** The continuation needs to be harmless only on the values the
    first part can return. *)
Lemma harmless_bind_on {A B} (Q : A → Prop) (m : M A) (k : A → M B) :
  harmless m → returns_only Q m → (∀ a, Q a → harmless (k a)) →
  harmless (m ≫= k).
Proof.
  intros Hm HQ Hk w. rewrite bind_run.
  destruct (Hm w) as (F1 & U1 & n1 & E1 & N1). specialize (HQ w).
  destruct (m w) as [[a|e] w1]; cbn in *.
  - destruct (Hk a (HQ a eq_refl) w1) as (F2 & U2 & n2 & E2 & N2).
    rewrite F2, U2, E2, E1, F1, U1. repeat split.
    exists (n1 ++ n2). rewrite <- List.app_assoc. split; [reflexivity|].
    apply Forall_app; auto.
  - repeat split; eauto.
Qed.

Lemma harmless_bind {A B} (m : M A) (k : A → M B) :
  harmless m → (∀ a, harmless (k a)) → harmless (m ≫= k).
Proof.
  intros Hm Hk. apply (harmless_bind_on (λ _, True)); auto.
  intros w a _. exact I.
Qed.

Lemma harmless_try {A} (m : M A) (hd : exn → M A) :
  harmless m → (∀ e, harmless (hd e)) → harmless (try_except m hd).
Proof.
  intros Hm Hk w. unfold try_except.
  destruct (Hm w) as (F1 & U1 & n1 & E1 & N1).
  destruct (m w) as [[a|e] w1]; cbn in *.
  - repeat split; eauto.
  - destruct (Hk e w1) as (F2 & U2 & n2 & E2 & N2).
    rewrite F2, U2, E2, E1, F1, U1. repeat split.
    exists (n1 ++ n2). rewrite <- List.app_assoc. split; [reflexivity|].
    apply Forall_app; auto.
Qed.

Lemma harmless_if {A} (b : bool) (m1 m2 : M A) :
  harmless m1 → harmless m2 → harmless (if b then m1 else m2).
Proof. destruct b; auto. Qed.

Ltac harmless_step :=
  first
    [ apply harmless_ret
    | apply harmless_lift
    | apply harmless_read_text
    | apply harmless_emit; exact I
    | apply harmless_bind; [| intros ?]
    | apply harmless_try; [| intros ?]
    | apply harmless_if
    | match goal with
      | |- harmless (match ?x with _ => _ end) => destruct x
      end ].

Lemma harmless_parse_frontmatter (h : host) (content : string) :
  harmless (parse_frontmatter h content).
Proof. unfold parse_frontmatter. repeat harmless_step. Qed.

Lemma harmless_scan_file (h : host) (manifest : list manifest_item)
    (root file : string) :
  harmless (scan_file h manifest root file).
Proof.
  unfold scan_file.
  repeat first [apply harmless_parse_frontmatter | harmless_step].
Qed.

Lemma harmless_verify_url_accessible (h : host) (url : string) :
  harmless (verify_url_accessible h url).
Proof. unfold verify_url_accessible. repeat harmless_step. Qed.

Lemma harmless_syndicate_to_bluesky (h : host) (client : bool) (fm : pyval)
    (url : string) :
  harmless (syndicate_to_bluesky h client fm url).
Proof. unfold syndicate_to_bluesky. repeat harmless_step. Qed.

Lemma harmless_syndicate_to_mastodon (h : host) (client : bool) (fm : pyval)
    (url : string) :
  harmless (syndicate_to_mastodon h client fm url).
Proof. unfold syndicate_to_mastodon. repeat harmless_step. Qed.

Lemma harmless_run_targets (h : host) (cfg : config) (item : manifest_item)
    (title targets : pyval) (url : string) :
  harmless (run_targets h cfg item title targets url).
Proof.
  unfold run_targets.
  repeat first [ apply harmless_syndicate_to_bluesky
               | apply harmless_syndicate_to_mastodon
               | harmless_step ].
Qed.

(** ** The scanner as a whole *)

Lemma scan_file_entry (h : host) (manifest : list manifest_item)
    (root file : string) (w : world) :
  (scan_file h manifest root file w).1
  = Ok (manifest ++ match entry_of h (files w) root file with
                    | Some item => [item]
                    | None => []
                    end).
Proof.
  rewrite scan_file_result. unfold entry_of.
  destruct (Py.endswith file ".md"); [|rewrite app_nil_r; reflexivity].
  destruct (files w !! path_join root file) as [content|];
    [|rewrite app_nil_r; reflexivity].
  cbv zeta.
  destruct (listed_for_syndication
              (parsed_header h (Py.universal_newlines content)));
    [|rewrite app_nil_r]; reflexivity.
Qed.

Lemma scan_files_spec (h : host) (root : string) (names : list string) :
  ∀ manifest w,
    (scan_files h manifest root names w).1
    = Ok (manifest ++ dir_entries h (files w) root names)
    ∧ files (scan_files h manifest root names w).2 = files w
    ∧ fault (scan_files h manifest root names w).2 = fault w.
Proof.
  induction names as [|file names IH]; intros manifest w.
  - cbn. rewrite app_nil_r. auto.
  - cbn [scan_files dir_entries]. rewrite bind_run.
    pose proof (scan_file_entry h manifest root file w) as E.
    destruct (harmless_scan_file h manifest root file w) as (F & U & _).
    destruct (scan_file h manifest root file w) as [[m'|e] w1];
      cbn in E, F, U; [|discriminate].
    injection E as ->.
    destruct (IH (manifest ++ match entry_of h (files w) root file with
                              | Some item => [item]
                              | None => []
                              end) w1) as (R & F' & U').
    rewrite R, F', U', F, U. split; [|auto].
    destruct (entry_of h (files w) root file);
      rewrite <- List.app_assoc; reflexivity.
Qed.

Lemma scan_run (h : host) (walk : list (string * list string)) :
  ∀ manifest w,
    (scan h manifest walk w).1
    = Ok (manifest ++ walk_entries h (files w) walk)
    ∧ files (scan h manifest walk w).2 = files w
    ∧ fault (scan h manifest walk w).2 = fault w.
Proof.
  induction walk as [|[root names] walk IH]; intros manifest w.
  - cbn. rewrite app_nil_r. auto.
  - cbn [scan walk_entries]. rewrite bind_run.
    destruct (scan_files_spec h root names manifest w) as (R & F & U).
    destruct (scan_files h manifest root names w) as [[m'|e] w1];
      cbn in R, F, U; [|discriminate].
    injection R as ->.
    destruct (IH (manifest ++ dir_entries h (files w) root names) w1)
      as (R' & F' & U').
    rewrite R', F', U', F, U, <- List.app_assoc. auto.
Qed.

(** The scan of [main] returns, in the order of the walk, exactly the
    [.md] files that can be read and whose header passes the test of
    lines 239-245; it never raises, whatever the files hold, and
    changes no file. *)
Theorem scan_lists_walk_in_order
    (h : host) (walk : list (string * list string)) (w : world) :
  (scan h [] walk w).1 = Ok (walk_entries h (files w) walk)
  ∧ files (scan h [] walk w).2 = files w
  ∧ fault (scan h [] walk w).2 = fault w.
Proof. apply (scan_run h walk []). Qed.

Lemma dir_entries_listed (h : host) (fs : gmap string string)
    (root : string) (names : list string) (item : manifest_item) :
  In item (dir_entries h fs root names) →
  ∃ file d,
    In file names
    ∧ Py.endswith file ".md" = true
    ∧ filepath item = path_join root file
    ∧ frontmatter item = VDict d
    ∧ dict_has d "syndicate_to" = true
    ∧ truthy (dict_get d "microblog_content" VNone) = true
    ∧ truthy (dict_get d "syndicated" (VBool false)) = false.
Proof.
  induction names as [|file names IH]; [intros []|].
  cbn [dir_entries].
  assert (Hrest : In item (dir_entries h fs root names) →
                  ∃ file0 d,
                    In file0 (file :: names)
                    ∧ Py.endswith file0 ".md" = true
                    ∧ filepath item = path_join root file0
                    ∧ frontmatter item = VDict d
                    ∧ dict_has d "syndicate_to" = true
                    ∧ truthy (dict_get d "microblog_content" VNone) = true
                    ∧ truthy (dict_get d "syndicated" (VBool false)) = false).
  { intros H. destruct (IH H) as (f & d & Hf & Rest).
    exists f, d. split; [right; exact Hf | exact Rest]. }
  destruct (entry_of h fs root file) as [it|] eqn:E; [|exact Hrest].
  intros [<-|H]; [|exact (Hrest H)].
  unfold entry_of in E.
  destruct (Py.endswith file ".md") eqn:Hmd; [|discriminate].
  destruct (fs !! path_join root file) as [content|]; [|discriminate].
  cbv zeta in E.
  destruct (listed_for_syndication
              (parsed_header h (Py.universal_newlines content))) eqn:Hl;
    [|discriminate].
  injection E as <-. unfold listed_for_syndication in Hl.
  destruct (parsed_header h (Py.universal_newlines content))
    as [| | | | |d|]; try discriminate.
  apply andb_prop in Hl as [Hl H3]. apply andb_prop in Hl as [H1 H2].
  apply negb_true_iff in H2.
  exists file, d. cbn. auto 10.
Qed.

(** Every entry of the manifest lies under a directory of the walk,
    bears a name ending in [.md], and carries a header that is a
    mapping with the key [syndicate_to], a true excerpt and no true
    [syndicated] value. *)
Theorem scanned_entries_are_listed
    (h : host) (walk : list (string * list string)) (w : world)
    (manifest : list manifest_item) (item : manifest_item) :
  (scan h [] walk w).1 = Ok manifest →
  In item manifest →
  ∃ root names file d,
    In (root, names) walk ∧ In file names
    ∧ Py.endswith file ".md" = true
    ∧ filepath item = path_join root file
    ∧ frontmatter item = VDict d
    ∧ dict_has d "syndicate_to" = true
    ∧ truthy (dict_get d "microblog_content" VNone) = true
    ∧ truthy (dict_get d "syndicated" (VBool false)) = false.
Proof.
  destruct (scan_run h walk [] w) as (R & _).
  rewrite R. intros [= <-]. cbn [app]. clear R.
  induction walk as [|[root names] walk IH]; [intros []|].
  cbn [walk_entries]. intros H. apply in_app_iff in H as [H|H].
  - destruct (dir_entries_listed _ _ _ _ _ H) as (f & d & Hf & Rest).
    exists root, names, f, d. split; [left; reflexivity|].
    split; [exact Hf | exact Rest].
  - destruct (IH H) as (r & ns & f & d & Hw & Rest).
    exists r, ns, f, d. split; [right; exact Hw | exact Rest].
Qed.

(** ** Processing *)

(** With string fields the exception of a publisher is the
    [NameError] of [truncate_text]. *)
Lemma call_truncate_text_NameError (h : host) (t c : string) (limit : Z) :
  call_truncate_text (global_scope h) (VStr t) (VStr c) limit
  = Raise (NameError "forced_suffix").
Proof.
  unfold call_truncate_text, truncate_text.
  destruct (_ <=? 0); rewrite forced_suffix_unbound; reflexivity.
Qed.

Lemma syndicate_to_bluesky_NameError (h : host) (d : dict) (t c url : string)
    (w : world) :
  dict_get d "title" (VStr "New Post") = VStr t →
  dict_get d "microblog_content" (VStr "") = VStr c →
  syndicate_to_bluesky h true (VDict d) url w
  = (Raise (NameError "forced_suffix"), w).
Proof.
  intros Ht Hc. unfold syndicate_to_bluesky. cbn [negb].
  rewrite bind_lift. cbn [py_get]. rewrite Ht.
  rewrite bind_lift. cbn [py_get]. rewrite Hc.
  change (global_int (global_scope h) "BSKY_CHAR_LIMIT") with (Ok 290).
  rewrite bind_lift. cbv beta iota.
  rewrite bind_lift, call_truncate_text_NameError. reflexivity.
Qed.

Lemma syndicate_to_mastodon_NameError (h : host) (d : dict) (t c url : string)
    (w : world) :
  dict_get d "title" (VStr "New Post") = VStr t →
  dict_get d "microblog_content" (VStr "") = VStr c →
  syndicate_to_mastodon h true (VDict d) url w
  = (Raise (NameError "forced_suffix"), w).
Proof.
  intros Ht Hc. unfold syndicate_to_mastodon. cbn [negb].
  rewrite bind_lift. cbn [py_get]. rewrite Ht.
  rewrite bind_lift. cbn [py_get]. rewrite Hc.
  change (global_int (global_scope h) "MASTODON_CHAR_LIMIT") with (Ok 490).
  rewrite bind_lift. cbv beta iota zeta.
  rewrite bind_lift, call_truncate_text_NameError. reflexivity.
Qed.

(** Outside a dry run every outcome that step 2 returns is a failure. *)
Lemma run_targets_live (h : host) (cfg : config) (item : manifest_item)
    (title targets : pyval) (url : string) :
  dry_run cfg = false →
  returns_only (λ rs, forallb negb rs = true)
    (run_targets h cfg item title targets url).
Proof.
  intros Hdry w rs. unfold run_targets. rewrite Hdry, bind_lift.
  destruct (py_in "bluesky" targets) as [wb|]; [|discriminate].
  assert (Hm : ∀ (pre : list bool) w1,
             forallb negb pre = true →
             ((wants_masto ← lift (py_in "mastodon" targets);
               if (wants_masto : bool) then
                 if masto_client cfg then
                   r ← syndicate_to_mastodon h (masto_client cfg)
                         (frontmatter item) url;
                   mret (pre ++ [r])
                 else mret (pre ++ [false])
               else mret pre) w1).1 = Ok rs →
             forallb negb rs = true).
  { intros pre w1 Hpre. rewrite bind_lift.
    destruct (py_in "mastodon" targets) as [[|]|]; [| |discriminate].
    - destruct (masto_client cfg).
      + rewrite bind_run.
        destruct (syndicate_to_mastodon_raises h (frontmatter item) url w1)
          as (e & ->). discriminate.
      + intros [= <-]. rewrite forallb_app, Hpre. reflexivity.
    - intros [= <-]. exact Hpre. }
  rewrite bind_run. destruct wb.
  - destruct (bsky_client cfg).
    + rewrite bind_run.
      destruct (syndicate_to_bluesky_raises h (frontmatter item) url w)
        as (e & ->). discriminate.
    + apply Hm. reflexivity.
  - apply Hm. reflexivity.
Qed.

Lemma harmless_mark_step (cfg : config) (item : manifest_item)
    (title : pyval) (rs : list bool) :
  dry_run cfg = true ∨ forallb negb rs = true →
  harmless (mark_step cfg item title rs).
Proof.
  intros H. unfold mark_step.
  destruct ((0 <? length rs)%nat && forallb id rs) eqn:Hall.
  - destruct (dry_run cfg); [apply harmless_emit; exact I|].
    destruct H as [H|H]; [discriminate|].
    destruct rs as [|[|] rs]; cbn in Hall, H; discriminate.
  - repeat harmless_step.
Qed.

Lemma harmless_process_item (h : host) (cfg : config) (item : manifest_item) :
  harmless (process_item h cfg item).
Proof.
  unfold process_item.
  do 3 (apply harmless_bind; [apply harmless_lift | intros ?]).
  apply harmless_bind.
  { repeat first [apply harmless_verify_url_accessible | harmless_step]. }
  intros reachable. apply harmless_if; [apply harmless_ret|].
  apply (harmless_bind_on
           (λ rs, dry_run cfg = true ∨ forallb negb rs = true)).
  - apply harmless_run_targets.
  - destruct (dry_run cfg) eqn:Hdry.
    + intros w rs _. left. reflexivity.
    + intros w rs Hrs. right. eapply run_targets_live; eauto.
  - intros rs Hrs. apply harmless_bind; [|intros ?; apply harmless_ret].
    apply harmless_mark_step. exact Hrs.
Qed.

Lemma harmless_process_manifest (h : host) (cfg : config)
    (manifest : list manifest_item) :
  harmless (process_manifest h cfg manifest).
Proof.
  induction manifest as [|item manifest IH]; [apply harmless_ret|].
  cbn [process_manifest].
  apply harmless_bind; [apply harmless_process_item | intros _; exact IH].
Qed.

Lemma harmless_scan (h : host) (walk : list (string * list string)) :
  ∀ manifest, harmless (scan h manifest walk).
Proof.
  assert (Hfiles : ∀ root names manifest,
             harmless (scan_files h manifest root names)).
  { intros root names. induction names as [|file names IH]; intros manifest.
    - apply harmless_ret.
    - cbn [scan_files].
      apply harmless_bind; [apply harmless_scan_file | intros ?; apply IH]. }
  induction walk as [|[root names] walk IH]; intros manifest.
  - apply harmless_ret.
  - cbn [scan]. apply harmless_bind; [apply Hfiles | intros ?; apply IH].
Qed.

(** No run marks a post: whatever the host, the configuration and the
    content tree, scanning and processing leave every file as it was
    and never call [mark_syndicated].  A dry run only prints; outside
    a dry run no publisher ever returns a success, so no outcome list
    passes the test of line 288. *)
Theorem no_run_marks_a_post
    (h : host) (cfg : config) (walk : list (string * list string))
    (w : world) :
  files (run_main h cfg walk w).2 = files w
  ∧ ∃ new,
      trace (run_main h cfg walk w).2 = trace w ++ new
      ∧ ∀ path, ¬ In (Call_mark_syndicated path) new.
Proof.
  assert (H : harmless (run_main h cfg walk)).
  { unfold run_main. apply harmless_bind; [apply harmless_scan|].
    intros manifest.
    apply harmless_bind; [apply harmless_emit; exact I|].
    intros _. apply harmless_process_manifest. }
  destruct (H w) as (F & _ & new & E & N).
  split; [exact F|]. exists new. split; [exact E|].
  intros path Hin. eapply List.Forall_forall in N; [|exact Hin]. exact N.
Qed.

(** The verification step of lines 260-264 when it lets the entry
    through. *)
Lemma verification_passes (h : host) (cfg : config) (url : string)
    (w : world) :
  dry_run cfg = false →
  force cfg = true ∨ http_get h url = Some 200 →
  (if negb (dry_run cfg) && negb (force cfg) then
     emit (Log INFO (VerifyingUrl url));;
     ok ← verify_url_accessible h url;
     if negb ok then emit (Log CRITICAL (Stopping url));; mret false
     else mret true
   else mret true) w
  = (Ok true,
     if force cfg then w else with_event w (Log INFO (VerifyingUrl url))).
Proof.
  intros Hdry Hok. rewrite Hdry. cbn [negb andb].
  destruct (force cfg) eqn:Hf; [reflexivity|]. cbn [negb].
  destruct Hok as [?|Hget]; [discriminate|].
  rewrite bind_run. cbn [emit]. rewrite bind_run.
  unfold verify_url_accessible. rewrite Hget. reflexivity.
Qed.

(** Outside a dry run, an entry that asks for a platform whose client
    exists ends the whole run: the publisher raises the [NameError] of
    [truncate_text] outside any [try], nothing is posted, logged as a
    failure or marked, and the entries after it are not processed. *)
Theorem live_publish_ends_the_run
    (h : host) (cfg : config) (item : manifest_item)
    (rest : list manifest_item) (d : dict) (t c url : string) (w : world) :
  dry_run cfg = false →
  force cfg = true ∨ http_get h url = Some 200 →
  frontmatter item = VDict d →
  dict_get d "title" (VStr "New Post") = VStr t →
  dict_get d "microblog_content" (VStr "") = VStr c →
  get_post_url (global_scope h) (filepath item) (VDict d) = Ok url →
  (py_in "bluesky" (dict_get d "syndicate_to" (VList [])) = Ok true
   ∧ bsky_client cfg = true)
  ∨ (py_in "mastodon" (dict_get d "syndicate_to" (VList [])) = Ok true
     ∧ masto_client cfg = true) →
  process_manifest h cfg (item :: rest) w
  = (Raise (NameError "forced_suffix"),
     if force cfg then w else with_event w (Log INFO (VerifyingUrl url))).
Proof.
  intros Hdry Hok Hfm Ht Hc Hurl Hwant.
  cbn [process_manifest]. rewrite bind_run. unfold process_item.
  rewrite Hfm. rewrite bind_lift. cbn [py_get].
  rewrite bind_lift, Hurl. rewrite bind_lift. cbn [py_get].
  rewrite bind_run, verification_passes by assumption. cbn [negb].
  set (w1 := if force cfg then w else _).
  rewrite bind_run. unfold run_targets. rewrite Hdry.
  assert (Hb : ∀ b, py_in "mastodon" (dict_get d "syndicate_to" (VList []))
                    = Ok b →
                    ∃ b', py_in "bluesky" (dict_get d "syndicate_to" (VList []))
                          = Ok b').
  { intros b. destruct (dict_get d "syndicate_to" (VList []));
      try discriminate; cbn; eauto. }
  destruct Hwant as [[Hw Hcl]|[Hw Hcl]].
  - rewrite bind_lift, Hw, bind_run, Hcl, bind_run.
    rewrite Hfm, (syndicate_to_bluesky_NameError h d t c) by assumption.
    reflexivity.
  - destruct (Hb _ Hw) as (b' & Hb'). rewrite bind_lift, Hb', bind_run.
    destruct b'.
    + destruct (bsky_client cfg) eqn:Hbc.
      * rewrite bind_run, Hfm,
          (syndicate_to_bluesky_NameError h d t c) by assumption.
        reflexivity.
      * cbn [mret M_ret]. rewrite bind_lift, Hw, Hcl, bind_run, Hfm,
          (syndicate_to_mastodon_NameError h d t c) by assumption.
        reflexivity.
    + cbn [mret M_ret]. rewrite bind_lift, Hw, Hcl, bind_run, Hfm,
        (syndicate_to_mastodon_NameError h d t c) by assumption.
      reflexivity.
Qed.

Lemma live_publish_ends_the_run_witness :
  process_manifest sample_host bsky_config [sample_item; sample_item]
    (sample_world NoFault)
  = (Raise (NameError "forced_suffix"), sample_world NoFault).
Proof.
  apply (live_publish_ends_the_run sample_host bsky_config sample_item
           [sample_item]
           [("title", VStr "x"); ("syndicate_to", VList [VStr "bluesky"]);
            ("microblog_content", VStr "hi")]
           "x" "hi" "https://example.com/post/" (sample_world NoFault));
    try reflexivity.
  - left. reflexivity.
  - left. split; reflexivity.
Defined.

(** Outside a dry run and without [--force], an entry whose URL does
    not answer with status 200 is left alone: the loop goes on to the
    next entry, no platform is tried, nothing is marked and no
    partial-failure warning is given; a failed request is logged
    before the stop line. *)
Theorem unreachable_entry_is_skipped
    (h : host) (cfg : config) (item : manifest_item) (d : dict)
    (url : string) (w : world) :
  dry_run cfg = false → force cfg = false →
  frontmatter item = VDict d →
  get_post_url (global_scope h) (filepath item) (VDict d) = Ok url →
  http_get h url ≠ Some 200 →
  (process_item h cfg item w).1 = Ok None
  ∧ files (process_item h cfg item w).2 = files w
  ∧ trace (process_item h cfg item w).2
    = trace w ++ [Log INFO (VerifyingUrl url)]
      ++ match http_get h url with
         | None => [Log ERROR (ConnectionFailed url)]
         | Some _ => []
         end
      ++ [Log CRITICAL (Stopping url)].
Proof.
  intros Hdry Hforce Hfm Hurl Hget.
  unfold process_item. rewrite Hfm, bind_lift. cbn [py_get].
  rewrite bind_lift, Hurl, bind_lift. cbn [py_get].
  rewrite Hdry, Hforce. cbn [negb andb].
  rewrite !bind_run. cbn [emit]. unfold verify_url_accessible.
  destruct (http_get h url) as [status|].
  - assert ((status =? 200) = false) as Hs.
    { apply Z.eqb_neq. intros ->. apply Hget. reflexivity. }
    rewrite Hs. unfold mbind, M_bind, mret, M_ret, emit, with_event. cbn.
    rewrite <- List.app_assoc. auto.
  - unfold mbind, M_bind, mret, M_ret, emit, with_event. cbn.
    rewrite <- !List.app_assoc. auto.
Qed.

Lemma unreachable_entry_is_skipped_witness :
  (process_item
     {| getenv := getenv sample_host; describe := describe sample_host;
        toml_loads := toml_loads sample_host;
        yaml_safe_load := yaml_safe_load sample_host;
        http_get := λ _, Some 404;
        send_post := send_post sample_host;
        status_post := status_post sample_host |}
     {| dry_run := false; force := false;
        bsky_client := true; masto_client := true |}
     sample_item (sample_world NoFault)).1
  = Ok None.
Proof.
  eapply (unreachable_entry_is_skipped _ _ sample_item
            [("title", VStr "x"); ("syndicate_to", VList [VStr "bluesky"]);
             ("microblog_content", VStr "hi")]
            "https://example.com/post/" (sample_world NoFault));
    try reflexivity.
  discriminate.
Defined.

(** A dry run needs no client and asks no server: whatever the
    clients, [--force] and the answers of the network, an entry whose
    URL resolves gets one simulated success and one printed line per
    requested platform, then the would-mark line when any platform
    was requested; no file changes. *)
Theorem dry_run_simulates
    (h : host) (cfg : config) (item : manifest_item) (d : dict)
    (url : string) (wants_bsky wants_masto : bool) (w : world) :
  dry_run cfg = true →
  frontmatter item = VDict d →
  get_post_url (global_scope h) (filepath item) (VDict d) = Ok url →
  py_in "bluesky" (dict_get d "syndicate_to" (VList [])) = Ok wants_bsky →
  py_in "mastodon" (dict_get d "syndicate_to" (VList [])) = Ok wants_masto →
  let title := dict_get d "title" (VStr "Unknown") in
  (process_item h cfg item w).1
  = Ok (Some ((if wants_bsky then [true] else [])
              ++ (if wants_masto then [true] else [])))
  ∧ files (process_item h cfg item w).2 = files w
  ∧ trace (process_item h cfg item w).2
    = trace w
      ++ (if wants_bsky then [Print (BlueskyDryRun title url)] else [])
      ++ (if wants_masto then [Print (MastodonDryRun title url)] else [])
      ++ (if wants_bsky || wants_masto
          then [Print (WouldMark (OsPath.basename (filepath item)))]
          else []).
Proof.
  intros Hdry Hfm Hurl Hb Hm title.
  unfold process_item. rewrite Hfm, bind_lift. cbn [py_get].
  rewrite bind_lift, Hurl, bind_lift. cbn [py_get].
  rewrite Hdry. cbn [negb andb]. rewrite bind_run. cbn [mret M_ret negb].
  rewrite bind_run. unfold run_targets. rewrite Hdry, bind_lift, Hb.
  rewrite bind_run. unfold mark_step. rewrite Hdry.
  destruct wants_bsky, wants_masto;
    unfold mbind, M_bind, mret, M_ret, emit, with_event, lift; cbn;
    rewrite Hm; cbn; rewrite <- ?List.app_assoc, ?app_nil_r; auto.
Qed.

Lemma dry_run_simulates_witness :
  (process_item sample_host dry_config sample_item (sample_world NoFault)).1
  = Ok (Some [true]).
Proof.
  eapply (dry_run_simulates sample_host dry_config sample_item
            [("title", VStr "x"); ("syndicate_to", VList [VStr "bluesky"]);
             ("microblog_content", VStr "hi")]
            "https://example.com/post/" true false (sample_world NoFault));
    reflexivity.
Defined.

(** ** Setting up and the whole of [main] *)

Lemma all_set_env (h : host) (a b : string) :
  In a ["BSKY_HANDLE"; "MASTODON_ACCESS_TOKEN"] →
  In b ["BSKY_PASSWORD"; "MASTODON_API_BASE"] →
  all_set (global_scope h) a b = Ok (env_set h a && env_set h b).
Proof.
  unfold all_set, env_set.
  intros [<-|[<-|[]]] [<-|[<-|[]]];
    match goal with
    | |- context [load_global _ ?x ≫= _] =>
        change (load_global (global_scope h) x) with (Ok (g_of_env (getenv h x)))
    end; cbn [mbind result_bind];
    match goal with
    | |- context [load_global _ ?x ≫= _] =>
        change (load_global (global_scope h) x) with (Ok (g_of_env (getenv h x)))
    end; cbn [mbind result_bind];
    repeat match goal with
           | |- context [getenv h ?x] => destruct (getenv h x)
           end; reflexivity.
Qed.

(** [main] stops with [sys.exit(1)] exactly when it is no dry run and
    neither platform has both of its credentials set; it has then
    logged the one critical line and read no file.  A dry run never
    stops there, whatever the environment holds. *)
Theorem main_exits_iff_no_credentials
    (h : host) (c : connectors) (dry_run force : bool)
    (walk : list (string * list string)) (w : world) :
  let has_bsky := env_set h "BSKY_HANDLE" && env_set h "BSKY_PASSWORD" in
  let has_masto :=
    env_set h "MASTODON_ACCESS_TOKEN" && env_set h "MASTODON_API_BASE" in
  ((∃ lines code, main h c dry_run force walk w = (lines, Exit code))
   ↔ dry_run = false ∧ has_bsky = false ∧ has_masto = false)
  ∧ (dry_run = false → has_bsky = false → has_masto = false →
     main h c dry_run force walk w = ([NoCredentials], Exit 1)).
Proof.
  intros has_bsky has_masto. unfold main, setup_clients.
  destruct dry_run; cbn [negb].
  - split; [|discriminate]. split.
    + intros (lines & code & [=]).
    + intros (? & _). discriminate.
  - rewrite !all_set_env by (cbn; auto). cbn [mbind result_bind].
    fold has_bsky has_masto.
    destruct has_bsky, has_masto; cbn [negb andb];
      try (split; [|discriminate || (intros; reflexivity)]; split;
           [|intros (_ & ? & ?); discriminate]).
    4: { split; [|reflexivity]. split; [auto | eauto]. }
    all: repeat match goal with
           | |- context [if ?b then _ else _] => destruct b
           end; intros (lines & code & [=]).
Qed.

(** After the setup of a live run, [bsky_client] is an object as soon
    as [Client()] returned, also when [login] then failed and the
    error was logged; [masto_client] is an object only when
    [Mastodon(...)] returned.  A platform without credentials gets no
    client and no line. *)
Theorem setup_keeps_a_client_that_failed_to_log_in
    (h : host) (c : connectors) :
  let has_bsky := env_set h "BSKY_HANDLE" && env_set h "BSKY_PASSWORD" in
  let has_masto :=
    env_set h "MASTODON_ACCESS_TOKEN" && env_set h "MASTODON_API_BASE" in
  has_bsky || has_masto = true →
  ∃ lines,
    setup_clients h c false
    = Ok (lines, Some (has_bsky && bsky_new c, has_masto && masto_new c))
    ∧ (In ConnectedBluesky lines
       ↔ has_bsky && bsky_new c && bsky_login c = true)
    ∧ (In BlueskyConnectionError lines
       ↔ has_bsky && negb (bsky_new c && bsky_login c) = true)
    ∧ (In ConnectedMastodon lines ↔ has_masto && masto_new c = true)
    ∧ (In MastodonConnectionError lines
       ↔ has_masto && negb (masto_new c) = true).
Proof.
  intros has_bsky has_masto Hany. unfold setup_clients. cbn [negb].
  rewrite !all_set_env by (cbn; auto). cbn [mbind result_bind].
  fold has_bsky has_masto.
  destruct has_bsky, has_masto; try discriminate; cbn [negb andb];
    destruct (bsky_new c), (bsky_login c), (masto_new c);
    eexists; (split; [reflexivity|]); cbn; intuition congruence.
Qed.

Lemma setup_keeps_a_client_that_failed_to_log_in_witness :
  ∃ lines,
    setup_clients bsky_host failing_login false
    = Ok (lines, Some (true, false))
    ∧ In BlueskyConnectionError lines.
Proof.
  destruct (setup_keeps_a_client_that_failed_to_log_in bsky_host
              failing_login eq_refl) as (lines & E & _ & Herr & _).
  exists lines. split; [exact E | apply Herr; reflexivity].
Defined.

Lemma scanned_entries_are_listed_witness :
  ∃ root names file d,
    In (root, names) [("content", ["note.md"])] ∧ In file names
    ∧ Py.endswith file ".md" = true
    ∧ "content/note.md" = path_join root file
    ∧ VDict [("syndicate_to", VList []); ("microblog_content", VStr "hi")]
      = VDict d
    ∧ dict_has d "syndicate_to" = true
    ∧ truthy (dict_get d "microblog_content" VNone) = true
    ∧ truthy (dict_get d "syndicated" (VBool false)) = false.
Proof.
  apply (scanned_entries_are_listed sample_host [("content", ["note.md"])]
           untargeted_world
           [{| frontmatter :=
                 VDict [("syndicate_to", VList []);
                        ("microblog_content", VStr "hi")];
               filepath := "content/note.md" |}]
           {| frontmatter :=
                VDict [("syndicate_to", VList []);
                       ("microblog_content", VStr "hi")];
              filepath := "content/note.md" |}).
  - reflexivity.
  - left. reflexivity.
Defined.

(** ** [parse_frontmatter] *)

(** [parse_frontmatter] never raises and touches no file.  Content
    that starts with [+++] goes to the TOML parser and content that
    starts with [---] to the YAML parser, each on the text between the
    third character and the next delimiter; what the parser returns is
    returned with no log line, and whatever it raises is logged as one
    error line and turned into [None].  Content that starts with
    neither delimiter gives [None] with no line at all. *)
Theorem parse_frontmatter_turns_errors_into_None
    (h : host) (content : string) (w : world) :
  let handled (r : result pyval) :=
    match r with
    | Ok v => (Ok v, w)
    | Raise _ =>
        (Ok VNone,
         {| files := files w; fault := fault w;
            trace := trace w ++ [Log ERROR ParsingError] |})
    end in
  parse_frontmatter h content w
  = (if Py.startswith content "+++" then
       handled (toml_loads h (Py.slice content 3 (Py.find content "+++" 3)))
     else if Py.startswith content "---" then
       handled
         (yaml_safe_load h (Py.slice content 3 (Py.find content "---" 3)))
     else (Ok VNone, w))
  ∧ (∃ v, (parse_frontmatter h content w).1 = Ok v)
  ∧ files (parse_frontmatter h content w).2 = files w
  ∧ fault (parse_frontmatter h content w).2 = fault w.
Proof.
  unfold parse_frontmatter, try_except.
  destruct (Py.startswith content "+++").
  - unfold lift. destruct (toml_loads h _); cbn; eauto.
  - destruct (Py.startswith content "---").
    + unfold lift. destruct (yaml_safe_load h _); cbn; eauto.
    + cbn. eauto.
Qed.

Lemma slice_3_to_last (s : string) :
  (3 <= String.length s)%nat →
  Py.slice s 3 (-1) = Py.drop 3 (Py.take (String.length s - 1) s).
Proof.
  intros Hn. unfold Py.slice, Py.clamp, Py.len.
  replace (3 <? 0) with false by reflexivity.
  replace (-1 <? 0) with true by reflexivity.
  replace (Z.to_nat (Z.min 3 (Z.of_nat (String.length s)))) with 3%nat by lia.
  replace (Z.to_nat (Z.max 0 (-1 + Z.of_nat (String.length s))))
    with (String.length s - 1)%nat by lia.
  reflexivity.
Qed.

Lemma startswith_length (s p : string) :
  Py.startswith s p = true → (String.length p <= String.length s)%nat.
Proof.
  unfold Py.startswith. revert s.
  induction p as [|c p IH]; intros s; [simpl; lia|].
  destruct s as [|d s]; [discriminate|]. cbn [String.prefix String.length].
  destruct (ascii_dec c d); [|discriminate].
  intros H. apply IH in H. lia.
Qed.

Lemma yaml_is_not_toml (s : string) :
  Py.startswith s "---" = true → Py.startswith s "+++" = false.
Proof.
  unfold Py.startswith.
  destruct s as [|a s]; cbn [String.prefix]; [intros [=]|].
  destruct (ascii_dec "-" a) as [<-|]; [intros _ | intros [=]].
  destruct (ascii_dec "+" "-"); [discriminate | reflexivity].
Qed.

(** A header that is never closed is parsed all the same, less one
    character: without a second delimiter [find] gives [-1], so the
    parser gets the text after the opening delimiter without the last
    character of the file. *)
Theorem unclosed_header_loses_last_character
    (h : host) (content : string) (w : world) :
  let body := Py.drop 3 (Py.take (String.length content - 1) content) in
  let value (r : result pyval) :=
    match r with
    | Ok v => v
    | Raise _ => VNone
    end in
  (Py.startswith content "+++" = true → Py.find content "+++" 3 = -1 →
   (parse_frontmatter h content w).1 = Ok (value (toml_loads h body)))
  ∧ (Py.startswith content "---" = true → Py.find content "---" 3 = -1 →
     (parse_frontmatter h content w).1 = Ok (value (yaml_safe_load h body))).
Proof.
  intros body value.
  destruct (parse_frontmatter_run h content w) as (w' & ->). cbn [fst].
  unfold parsed_header. split.
  - intros Hs Hf. rewrite Hs, Hf, slice_3_to_last.
    + reflexivity.
    + apply (startswith_length content "+++" Hs).
  - intros Hs Hf.
    rewrite (yaml_is_not_toml content Hs), Hs, Hf, slice_3_to_last.
    + reflexivity.
    + apply (startswith_length content "---" Hs).
Qed.

Lemma unclosed_header_loses_last_character_witness :
  (parse_frontmatter sample_host ("---" +:+ Py.nl +:+ "title: xy")
     (sample_world NoFault)).1
  = Ok match yaml_safe_load sample_host (Py.nl +:+ "title: x") with
       | Ok v => v
       | Raise _ => VNone
       end.
Proof.
  apply (unclosed_header_loses_last_character sample_host
           ("---" +:+ Py.nl +:+ "title: xy") (sample_world NoFault));
    reflexivity.
Defined.

(** ** [get_post_url] beyond leaf bundles *)

(** When [get_post_url] fails: with [IndexError] exactly for a leaf
    bundle that has a slug but no directory to put it in (as
    [content/index.md]); with [TypeError] exactly for a slug that is
    true but no string, unless the [IndexError] comes first; with
    [AttributeError] for a header that is no mapping.  In every other
    case it returns a URL. *)
Theorem get_post_url_fails_iff (h : host) (filepath : string) (d : dict) :
  let slug := dict_get d "slug" VNone in
  let no_room := is_leaf_bundle filepath = true ∧ post_dirs filepath = [] in
  (get_post_url (global_scope h) filepath (VDict d) = Raise IndexError
   ↔ truthy slug = true ∧ no_room)
  ∧ (get_post_url (global_scope h) filepath (VDict d) = Raise TypeError
     ↔ truthy slug = true ∧ (∀ s, slug ≠ VStr s) ∧ ¬ no_room)
  ∧ ((∃ url, get_post_url (global_scope h) filepath (VDict d) = Ok url)
     ↔ truthy slug = false ∨ ((∃ s, slug = VStr s) ∧ ¬ no_room))
  ∧ (∀ v, (∀ d', v ≠ VDict d') →
          get_post_url (global_scope h) filepath v = Raise AttributeError).
Proof.
  intros slug no_room. subst no_room.
  split; [|split; [|split]].
  4: { intros v Hv. unfold get_post_url. rewrite site_root_ok.
       cbn [mbind result_bind].
       destruct v; try (destruct (_ || _); reflexivity).
       exfalso. eapply Hv. reflexivity. }
  all: rewrite get_post_url_run; cbv zeta; unfold closing_part; fold slug;
    destruct (is_leaf_bundle filepath);
    destruct (truthy slug) eqn:Ht;
    destruct (post_dirs filepath) as [|x l];
    destruct slug; try discriminate Ht; naive_solver.
Qed.

Lemma rstrip_by_last (p : ascii → bool) (s r : string) (c : ascii) :
  Py.rstrip_by p s = r +:+ String c "" → p c = false.
Proof.
  revert r. induction s as [|a s IH]; intros r; cbn [Py.rstrip_by].
  - destruct r; discriminate.
  - destruct (Py.rstrip_by p s) as [|x y] eqn:E.
    + destruct (p a) eqn:Hp; [destruct r; discriminate|].
      destruct r as [|b r]; [intros [= <-]; exact Hp|].
      destruct r; discriminate.
    + destruct r as [|b r]; [discriminate|].
      change (String b r +:+ String c "") with (String b (r +:+ String c "")).
      intros [= _ H]. eapply IH. exact H.
Qed.

(** Every URL is the root, a slash, a path and a closing slash; the
    root never ends with a slash, since trailing slashes of [BASE_URL]
    are stripped, and it is [https://example.com] when [BASE_URL] is
    unset or empty. *)
Theorem url_starts_at_root (h : host) (filepath : string) (v : pyval)
    (url : string) :
  get_post_url (global_scope h) filepath v = Ok url →
  (∃ path, url = root_of h +:+ "/" +:+ path +:+ "/")
  ∧ (∀ r, root_of h ≠ r +:+ "/")
  ∧ (env_set h "BASE_URL" = false → root_of h = "https://example.com").
Proof.
  intros Hurl. split; [|split].
  - destruct v as [| | | | |d|];
      try (unfold get_post_url in Hurl; rewrite site_root_ok in Hurl;
           cbn [mbind result_bind] in Hurl;
           destruct (_ || _); discriminate Hurl).
    rewrite get_post_url_run in Hurl. cbv zeta in Hurl. unfold url_of in Hurl.
    repeat match type of Hurl with
           | (if ?b then _ else _) = _ => destruct b
           | (match ?x with _ => _ end) = _ =>
               destruct x; try discriminate Hurl
           end;
      try discriminate Hurl;
      injection Hurl as <-; eexists; reflexivity.
  - intros r H.
    assert (Hroot : ∃ s, root_of h = Py.rstrip_slash s).
    { unfold root_of. destruct (getenv h "BASE_URL") as [s|].
      - destruct (String.eqb s "");
          [exists "https://example.com"; reflexivity | eauto].
      - exists "https://example.com". reflexivity. }
    destruct Hroot as (s & Hs). rewrite Hs in H.
    apply rstrip_by_last in H. discriminate H.
  - unfold env_set, root_of. destruct (getenv h "BASE_URL") as [s|];
      [|reflexivity].
    destruct (String.eqb s ""); [reflexivity | discriminate].
Qed.

Lemma url_starts_at_root_witness :
  (∃ path, "https://example.com/blog/2025/11/post/"
           = root_of sample_host +:+ "/" +:+ path +:+ "/")
  ∧ ∀ r, root_of sample_host ≠ r +:+ "/".
Proof.
  destruct (url_starts_at_root sample_host "content/blog/2025/11/post.md"
              (VDict []) "https://example.com/blog/2025/11/post/" eq_refl)
    as (Hpath & Hroot & _).
  split; [exact Hpath | exact Hroot].
Defined.

(** ** File names *)

Lemma drop_app_length_str (a b : string) :
  Py.drop (String.length a) (a +:+ b) = b.
Proof. induction a as [|c a IH]; [destruct b; reflexivity | exact IH]. Qed.

Lemma take_app_length_str (a b : string) :
  Py.take (String.length a) (a +:+ b) = a.
Proof.
  induction a as [|c a IH]; [destruct b; reflexivity|].
  change (String c a +:+ b) with (String c (a +:+ b)). simpl. rewrite IH.
  reflexivity.
Qed.

Lemma take_drop_str (n : nat) (s : string) : Py.take n s +:+ Py.drop n s = s.
Proof.
  revert n. induction s as [|c s IH]; intros [|n]; try reflexivity.
  cbn [Py.take Py.drop].
  change (String c (Py.take n s +:+ Py.drop n s) = String c s).
  rewrite IH. reflexivity.
Qed.

Lemma has_char_app (c : ascii) (a b : string) :
  has_char c (a +:+ b) = has_char c a || has_char c b.
Proof.
  induction a as [|x a IH]; [reflexivity|].
  change (String x a +:+ b) with (String x (a +:+ b)). cbn [has_char].
  rewrite IH, orb_assoc. reflexivity.
Qed.

Lemma rfind_at_none (c : ascii) (s : string) :
  ∀ i acc, has_char c s = false → Py.rfind_at c s i acc = acc.
Proof.
  induction s as [|x s IH]; intros i acc; [reflexivity|].
  cbn [has_char Py.rfind_at]. intros H. apply orb_false_iff in H as [Hx Hs].
  rewrite Hx. apply IH. exact Hs.
Qed.

Lemma rfind_at_app (c : ascii) (a b : string) :
  ∀ i acc,
    Py.rfind_at c (a +:+ b) i acc
    = Py.rfind_at c b (i + String.length a) (Py.rfind_at c a i acc).
Proof.
  induction a as [|x a IH]; intros i acc.
  - cbn. rewrite Nat.add_0_r. reflexivity.
  - change (String x a +:+ b) with (String x (a +:+ b)).
    cbn [Py.rfind_at String.length]. rewrite IH.
    replace (S i + String.length a)%nat with (i + S (String.length a))%nat
      by lia.
    reflexivity.
Qed.

(** The position of a character after which it does not occur again. *)
Lemma rfind_last (c : ascii) (a b : string) :
  has_char c b = false →
  Py.rfind (a +:+ String c b) c = Z.of_nat (String.length a).
Proof.
  intros Hb. unfold Py.rfind. rewrite rfind_at_app.
  cbn [Py.rfind_at]. rewrite Ascii.eqb_refl, rfind_at_none by exact Hb.
  reflexivity.
Qed.

Lemma basename_after_slash (dir file : string) :
  has_char "/" file = false →
  OsPath.basename (dir +:+ "/" +:+ file) = file.
Proof.
  intros Hf. unfold OsPath.basename, Py.slice_from, Py.clamp, Py.len.
  change (dir +:+ "/" +:+ file) with (dir +:+ String "/" file).
  rewrite rfind_last by exact Hf.
  rewrite str_length_app. cbn [String.length].
  destruct (Z.ltb_spec (Z.of_nat (String.length dir) + 1) 0) as [Hlt|_];
    [lia|].
  replace (Z.to_nat
             (Z.min (Z.of_nat (String.length dir) + 1)
                (Z.of_nat (String.length dir + S (String.length file)))))
    with (String.length (dir +:+ "/"))
    by (rewrite str_length_app; simpl; lia).
  change (dir +:+ String "/" file) with (dir +:+ ("/" +:+ file)).
  rewrite <- str_app_assoc. apply drop_app_length_str.
Qed.

Lemma basename_no_slash (file : string) :
  has_char "/" file = false → OsPath.basename file = file.
Proof.
  intros Hf. unfold OsPath.basename, Py.rfind.
  rewrite rfind_at_none by exact Hf.
  unfold Py.slice_from, Py.clamp. change (-1 + 1 <? 0) with false.
  cbv iota.
  replace (Z.to_nat (Z.min (-1 + 1) (Py.len file))) with 0%nat
    by (unfold Py.len; lia).
  reflexivity.
Qed.

Lemma endswith_slash (s : string) :
  Py.endswith s "/" = true → ∃ r, s = r +:+ "/".
Proof.
  unfold Py.endswith. intros H. apply andb_prop in H as [_ H].
  apply String.eqb_eq in H.
  exists (Py.take (String.length s - String.length "/") s).
  rewrite <- H at 2. symmetry. apply take_drop_str.
Qed.

Lemma startswith_has_char (s : string) :
  has_char "/" s = false → Py.startswith s "/" = false.
Proof.
  unfold Py.startswith. destruct s as [|c s]; [reflexivity|].
  cbn [has_char String.prefix]. intros H.
  apply orb_false_iff in H as [Hc _].
  destruct (ascii_dec "/" c) as [<-|]; [discriminate Hc | reflexivity].
Qed.

(** The path the scanner builds for a file ends with the name of the
    file: [basename] undoes [join] for a name without a slash, as
    [os.walk] gives them. *)
Theorem basename_of_joined_path (root file : string) :
  has_char "/" file = false →
  OsPath.basename (path_join root file) = file.
Proof.
  intros Hf. unfold path_join. rewrite (startswith_has_char file Hf).
  destruct (String.eqb root "") eqn:Hr.
  - apply String.eqb_eq in Hr as ->. cbn [orb].
    change ("" +:+ file) with file. apply basename_no_slash. exact Hf.
  - cbn [orb]. destruct (Py.endswith root "/") eqn:He.
    + destruct (endswith_slash root He) as (r & ->).
      rewrite str_app_assoc. apply basename_after_slash. exact Hf.
    + apply basename_after_slash. exact Hf.
Qed.

Lemma basename_of_joined_path_witness :
  OsPath.basename (path_join "content/blog" "post.md") = "post.md".
Proof.
  apply (basename_of_joined_path "content/blog" "post.md"). reflexivity.
Defined.

Lemma clamp_inside (n k : nat) :
  (k <= n)%nat → Py.clamp (Z.of_nat n) (Z.of_nat k) = k.
Proof.
  intros H. unfold Py.clamp.
  destruct (Z.ltb_spec (Z.of_nat k) 0) as [Hlt|_]; lia.
Qed.

(** [splitext] takes the extension off a simple file name. *)
Lemma splitext_root_simple (name ext : string) :
  name ≠ "" →
  has_char "." name = false → has_char "/" name = false →
  has_char "." ext = false → has_char "/" ext = false →
  OsPath.splitext_root (name +:+ "." +:+ ext) = name.
Proof.
  intros Hne Hdn Hsn Hde Hse. unfold OsPath.splitext_root.
  change (name +:+ "." +:+ ext) with (name +:+ String "." ext).
  rewrite (rfind_last "." name ext Hde).
  assert (Hsep : Py.rfind (name +:+ String "." ext) "/" = -1).
  { unfold Py.rfind. apply rfind_at_none.
    rewrite has_char_app, Hsn. cbn [has_char orb]. exact Hse. }
  rewrite Hsep.
  assert (Hlen : (String.length name
                  <= String.length (name +:+ String "." ext))%nat)
    by (rewrite str_length_app; lia).
  assert (Hgt : (Z.of_nat (String.length name) >? -1) = true) by lia.
  rewrite Hgt. cbn [andb].
  unfold Py.slice, Py.slice_to, Py.len.
  change (-1 + 1) with (Z.of_nat 0).
  rewrite !clamp_inside by lia.
  rewrite take_app_length_str. change (Py.drop 0 name) with name.
  destruct name as [|a name]; [contradiction|].
  cbn [has_char] in Hdn. apply orb_false_iff in Hdn as [Ha _].
  cbn [list_ascii_of_string existsb]. rewrite Ha. reflexivity.
Qed.

(** From the scanner to the URL: an ordinary post [name.md] found in
    directory [root], with no slug in its header, gets the URL made of
    the directories of its path and [name]. *)
Theorem post_url_ends_with_file_stem
    (h : host) (root name : string) (d : dict) :
  name ≠ "" →
  has_char "." name = false → has_char "/" name = false →
  name +:+ ".md" ≠ "index.md" → name +:+ ".md" ≠ "_index.md" →
  truthy (dict_get d "slug" VNone) = false →
  let filepath := path_join root (name +:+ ".md") in
  get_post_url (global_scope h) filepath (VDict d)
  = Ok (url_of h (post_dirs filepath ++ [name])).
Proof.
  intros Hne Hdot Hslash Hi1 Hi2 Hslug filepath.
  assert (Hbase : OsPath.basename filepath = name +:+ ".md").
  { apply basename_of_joined_path. rewrite has_char_app, Hslash.
    reflexivity. }
  rewrite get_post_url_run. cbv zeta.
  unfold is_leaf_bundle, closing_part. fold filepath.
  rewrite Hbase, Hslug.
  apply String.eqb_neq in Hi1, Hi2. rewrite Hi1, Hi2. cbn [orb].
  change (name +:+ ".md") with (name +:+ "." +:+ "md").
  rewrite (splitext_root_simple name "md") by (assumption || reflexivity).
  reflexivity.
Qed.

Lemma post_url_ends_with_file_stem_witness :
  get_post_url (global_scope sample_host)
    (path_join "content/blog/2025/11" "post.md") (VDict [])
  = Ok "https://example.com/blog/2025/11/post/".
Proof.
  apply (post_url_ends_with_file_stem sample_host "content/blog/2025/11"
           "post" []); (discriminate || reflexivity).
Defined.

(** ** [mark_syndicated] again *)

(** A run of [mark_syndicated] that meets no failure. *)
Lemma mark_syndicated_ok (item : manifest_item) (w : world) (text : string) :
  files w !! filepath item = Some text → text ≠ "" → fault w = NoFault →
  mark_syndicated item w
  = (Ok tt,
     {| files := <[filepath item :=
                     String.concat ""
                       (spec_marked_lines
                          (Py.readlines (Py.universal_newlines text)))]>
                   (files w);
        fault := NoFault;
        trace := trace w ++ [Call_mark_syndicated (filepath item);
                             Log INFO (UpdatedStatus (filepath item))] |}).
Proof.
  intros Htext Hne Hfault.
  rewrite mark_syndicated_run, Htext, Hfault. cbv zeta.
  destruct (Py.readlines (Py.universal_newlines text))
    as [|first rest] eqn:Hl.
  { apply readlines_nil, universal_newlines_nil in Hl. contradiction. }
  rewrite (write_all_no_fault _ _ _ "");
    [| reflexivity | apply lookup_insert_eq].
  unfold with_event, with_files. cbn [files fault trace].
  rewrite insert_insert_eq, <- List.app_assoc. reflexivity.
Qed.

(** Whenever no failure occurs [mark_syndicated] logs that it updated
    the file, also when the file has no closing delimiter: then no
    marker is written and the file holds its text as it was read,
    every [\r\n] and lone [\r] turned into [\n]; when the text has no
    carriage return the files are as before. *)
Theorem mark_syndicated_reports_update_without_marker
    (item : manifest_item) (w : world) (text : string) :
  files w !! filepath item = Some text → text ≠ "" → fault w = NoFault →
  trace (mark_syndicated item w).2
  = trace w ++ [Call_mark_syndicated (filepath item);
                Log INFO (UpdatedStatus (filepath item))]
  ∧ (closing_index (Py.readlines (Py.universal_newlines text)) = None →
     files (mark_syndicated item w).2
     = <[filepath item := Py.universal_newlines text]> (files w)
     ∧ (has_char (ascii_of_nat 13) text = false →
        files (mark_syndicated item w).2 = files w)).
Proof.
  intros Htext Hne Hfault.
  rewrite (mark_syndicated_ok item w text) by assumption.
  cbn [snd trace files]. split; [reflexivity|].
  intros Hnone. unfold spec_marked_lines. rewrite Hnone, concat_readlines.
  split; [reflexivity|].
  intros Hcr. rewrite (universal_newlines_no_cr text Hcr).
  apply insert_id. exact Htext.
Qed.

Lemma mark_syndicated_reports_update_without_marker_witness :
  files (mark_syndicated crlf_item crlf_world).2
  = {[ "dos.md" := "no header here" +:+ Py.nl ]}
  ∧ files (mark_syndicated plain_item plain_world).2 = files plain_world.
Proof.
  split.
  - assert (Htext : files crlf_world !! filepath crlf_item
                    = Some ("no header here"
                            +:+ String (ascii_of_nat 13)
                                  (String (ascii_of_nat 10) "")))
      by reflexivity.
    assert (Hne : "no header here"
                  +:+ String (ascii_of_nat 13) (String (ascii_of_nat 10) "")
                  ≠ "") by discriminate.
    destruct (mark_syndicated_reports_update_without_marker
                crlf_item crlf_world _ Htext Hne eq_refl) as [_ H].
    destruct (H eq_refl) as [Hfiles _]. rewrite Hfiles.
    apply insert_singleton_eq.
  - assert (Htext : files plain_world !! filepath plain_item
                    = Some "no header here") by reflexivity.
    assert (Hne : "no header here" ≠ "") by discriminate.
    destruct (mark_syndicated_reports_update_without_marker
                plain_item plain_world "no header here" Htext Hne eq_refl)
      as [_ H].
    destruct (H eq_refl) as [_ H']. apply H'. reflexivity.
Defined.

(** *** Reading back what was written *)

Lemma ends_line_nonempty (l : string) : ends_line l = true → l ≠ "".
Proof. destruct l; [discriminate | discriminate]. Qed.

Lemma readlines_line (l rest : string) :
  ends_line l = true → Py.readlines (l +:+ rest) = l :: Py.readlines rest.
Proof.
  induction l as [|c l IH]; [discriminate|].
  change (String c l +:+ rest) with (String c (l +:+ rest)).
  cbn [ends_line Py.readlines].
  destruct l as [|c' l].
  - intros ->. reflexivity.
  - intros H. apply andb_prop in H as [Hc Hl].
    apply negb_true_iff in Hc. rewrite Hc, (IH Hl). reflexivity.
Qed.

Lemma readlines_open (l : string) :
  open_line l = true → Py.readlines l = [l].
Proof.
  unfold open_line. intros H. apply andb_prop in H as [Hne Hnl].
  apply negb_true_iff in Hnl.
  induction l as [|c l IH]; [discriminate|].
  cbn [has_char] in Hnl. apply orb_false_iff in Hnl as [Hc Hl].
  cbn [Py.readlines]. rewrite Hc.
  destruct l as [|c' l]; [reflexivity|].
  rewrite IH; [reflexivity | reflexivity | exact Hl].
Qed.

(** Joining well-formed lines and reading them back gives the lines. *)
Lemma readlines_concat (lines : list string) :
  lines_ok lines = true → Py.readlines (String.concat "" lines) = lines.
Proof.
  induction lines as [|l rest IH]; [reflexivity|].
  rewrite concat_cons. cbn [lines_ok].
  destruct rest as [|l' rest].
  - intros H. change (String.concat "" []) with "". rewrite str_app_nil_r.
    apply orb_prop in H as [H|H].
    + rewrite <- (str_app_nil_r l) at 1. rewrite (readlines_line l "" H).
      reflexivity.
    + apply readlines_open. exact H.
  - intros H. apply andb_prop in H as [Hl Hrest].
    rewrite (readlines_line l _ Hl), (IH Hrest). reflexivity.
Qed.

(** What [readlines] returns is well formed. *)
Lemma readlines_ok (s : string) : lines_ok (Py.readlines s) = true.
Proof.
  induction s as [|c s IH]; [reflexivity|]. cbn [Py.readlines].
  destruct (Ascii.eqb c (ascii_of_nat 10)) eqn:Hc.
  - cbn [lines_ok ends_line]. rewrite Hc.
    destruct (Py.readlines s); [reflexivity | exact IH].
  - destruct (Py.readlines s) as [|l ls] eqn:Hl.
    + cbn [lines_ok ends_line]. rewrite Hc. unfold open_line.
      cbn [has_char String.eqb]. rewrite Hc. reflexivity.
    + cbn [lines_ok] in IH |- *.
      assert (Hends : ends_line l = true → ends_line (String c l) = true).
      { intros H. cbn [ends_line]. destruct l; [discriminate|].
        rewrite Hc. exact H. }
      assert (Hopen : open_line l = true → open_line (String c l) = true).
      { unfold open_line. intros H. apply andb_prop in H as [_ H].
        cbn [has_char String.eqb]. rewrite Hc. exact H. }
      destruct ls as [|l' ls].
      * apply orb_prop in IH as [H|H]; apply orb_true_iff; auto.
      * apply andb_prop in IH as [H1 H2]. rewrite (Hends H1). exact H2.
Qed.

(** Putting a line with its newline in front of a line of a
    well-formed list keeps the list well formed. *)
Lemma lines_ok_insert (m : string) (lines : list string) :
  ∀ k, ends_line m = true → lines_ok lines = true →
       (k < length lines)%nat →
       lines_ok (List.firstn k lines ++ [m] ++ List.skipn k lines) = true.
Proof.
  induction lines as [|l rest IH]; intros k Hm Hok Hk; [simpl in Hk; lia|].
  destruct k as [|k].
  - cbn [List.firstn List.skipn app lines_ok]. rewrite Hm. exact Hok.
  - cbn [List.firstn List.skipn]. simpl in Hk.
    change ((l :: List.firstn k rest) ++ [m] ++ List.skipn k rest)
      with (l :: (List.firstn k rest ++ [m] ++ List.skipn k rest)).
    destruct rest as [|l' rest]; [simpl in Hk; lia|].
    cbn [lines_ok] in Hok. apply andb_prop in Hok as [Hl Hrest].
    specialize (IH k Hm Hrest ltac:(lia)).
    cbn [lines_ok].
    destruct (List.firstn k (l' :: rest) ++ [m] ++ List.skipn k (l' :: rest))
      eqn:E.
    + destruct (List.firstn k (l' :: rest)); discriminate E.
    + rewrite Hl. exact IH.
Qed.

Lemma marker_line_ends (first : string) : ends_line (marker_line first) = true.
Proof.
  unfold marker_line. destruct (String.eqb (Py.strip first) "+++");
    reflexivity.
Qed.

Lemma marker_is_no_delimiter (first : string) :
  String.eqb (Py.strip (marker_line first)) (closing_delimiter first) = false.
Proof.
  unfold marker_line, closing_delimiter.
  destruct (String.eqb (Py.strip first) "+++"); reflexivity.
Qed.

Lemma find_first_length (p : string → bool) (l : list string) (k : nat) :
  find_first p l = Some k → (k < length l)%nat.
Proof.
  revert k. induction l as [|x l IH]; intros k; [discriminate|].
  cbn [find_first]. destruct (p x); [intros [= <-]; simpl; lia|].
  destruct (find_first p l) as [j|]; [|discriminate].
  intros [= <-]. specialize (IH j eq_refl). simpl. lia.
Qed.

Lemma closing_index_length (lines : list string) (k : nat) :
  closing_index lines = Some k → (0 < k < length lines)%nat.
Proof.
  destruct lines as [|first rest]; [discriminate|]. cbn [closing_index].
  destruct (find_first _ rest) as [j|] eqn:E; [|discriminate].
  intros [= <-]. apply find_first_length in E. simpl. lia.
Qed.

(** *** Carriage returns *)

(** The text a file object gives holds no carriage return. *)
Lemma universal_newlines_has_no_cr (s : string) :
  has_char (ascii_of_nat 13) (Py.universal_newlines s) = false.
Proof.
  enough (H : has_char (ascii_of_nat 13) (Py.universal_newlines s) = false
              ∧ ∀ c, has_char (ascii_of_nat 13)
                       (Py.universal_newlines (String c s)) = false)
    by apply H.
  induction s as [|d r [IH1 IH2]].
  - split; [reflexivity|]. intros c. cbn [Py.universal_newlines].
    destruct (Ascii.eqb c (ascii_of_nat 13)) eqn:Hc; [reflexivity|].
    cbn [has_char]. rewrite Hc. reflexivity.
  - split; [apply IH2|]. intros c.
    change (Py.universal_newlines (String c (String d r)))
      with (if Ascii.eqb c (ascii_of_nat 13) then
              String (ascii_of_nat 10)
                (if Ascii.eqb d (ascii_of_nat 10)
                 then Py.universal_newlines r
                 else Py.universal_newlines (String d r))
            else String c (Py.universal_newlines (String d r))).
    destruct (Ascii.eqb c (ascii_of_nat 13)) eqn:Hc.
    + cbn [has_char].
      change (Ascii.eqb (ascii_of_nat 10) (ascii_of_nat 13)) with false.
      cbn [orb]. destruct (Ascii.eqb d (ascii_of_nat 10)); [exact IH1|].
      apply IH2.
    + cbn [has_char]. rewrite Hc. cbn [orb]. apply IH2.
Qed.

Lemma marker_line_has_no_cr (first : string) :
  has_char (ascii_of_nat 13) (marker_line first) = false.
Proof.
  unfold marker_line. destruct (String.eqb (Py.strip first) "+++");
    reflexivity.
Qed.

(** Marking lines without carriage return gives lines without one. *)
Lemma spec_marked_lines_no_cr (lines : list string) :
  has_char (ascii_of_nat 13) (String.concat "" lines) = false →
  has_char (ascii_of_nat 13) (String.concat "" (spec_marked_lines lines))
  = false.
Proof.
  unfold spec_marked_lines.
  destruct (closing_index lines) as [k|]; [|auto].
  rewrite <- (List.firstn_skipn k lines) at 1.
  rewrite !concat_app, !has_char_app, concat_cons, has_char_app.
  intros H. apply orb_false_iff in H as [-> ->].
  rewrite marker_line_has_no_cr. reflexivity.
Qed.

(** The file that [mark_syndicated] leaves is read as it is stored. *)
Lemma marked_text_is_read_as_stored (text : string) :
  let text' :=
    String.concat ""
      (spec_marked_lines (Py.readlines (Py.universal_newlines text))) in
  Py.universal_newlines text' = text'.
Proof.
  cbv zeta. apply universal_newlines_no_cr, spec_marked_lines_no_cr.
  rewrite concat_readlines. apply universal_newlines_has_no_cr.
Qed.

(** The marker is a line of its own: reading the rewritten file gives
    the lines that were read before, with the marker line between
    them, right before the closing delimiter. *)
Theorem marker_is_a_line_of_its_own
    (item : manifest_item) (w : world) (text : string) (k : nat) :
  files w !! filepath item = Some text →
  fault w = NoFault →
  let lines := Py.readlines (Py.universal_newlines text) in
  closing_index lines = Some k →
  ∃ text',
    files (mark_syndicated item w).2 !! filepath item = Some text'
    ∧ Py.readlines (Py.universal_newlines text')
      = List.firstn k lines ++ [marker_line (List.hd "" lines)]
        ++ List.skipn k lines.
Proof.
  intros Htext Hfault lines Hk.
  assert (Hne : text ≠ "") by (intros ->; discriminate Hk).
  rewrite (mark_syndicated_ok item w text) by assumption.
  cbn [snd files]. rewrite lookup_insert_eq. eexists. split; [reflexivity|].
  rewrite (marked_text_is_read_as_stored text). fold lines.
  unfold spec_marked_lines. rewrite Hk.
  apply readlines_concat, lines_ok_insert.
  - apply marker_line_ends.
  - apply readlines_ok.
  - apply closing_index_length in Hk. lia.
Qed.

Lemma marker_is_a_line_of_its_own_witness :
  ∃ text',
    files (mark_syndicated sample_item (sample_world NoFault)).2
      !! "content/post.md" = Some text'
    ∧ Py.readlines (Py.universal_newlines text')
      = ["---" +:+ Py.nl; "title: x" +:+ Py.nl; "syndicated: true" +:+ Py.nl;
         "---" +:+ Py.nl; "body" +:+ Py.nl].
Proof.
  apply (marker_is_a_line_of_its_own sample_item (sample_world NoFault)
           sample_text 2); reflexivity.
Defined.

(** *** Marking twice *)

Lemma find_first_after_insert (p : string → bool) (m : string)
    (rest : list string) :
  ∀ j, find_first p rest = Some j → p m = false →
       find_first p (List.firstn j rest ++ m :: List.skipn j rest)
       = Some (S j).
Proof.
  induction rest as [|x rest IH]; intros j; [discriminate|].
  cbn [find_first]. destruct (p x) eqn:Hx.
  - intros [= <-] Hm. cbn [List.firstn List.skipn app find_first].
    rewrite Hm, Hx. reflexivity.
  - destruct (find_first p rest) as [j'|] eqn:E; [|discriminate].
    intros [= <-] Hm. cbn [List.firstn List.skipn].
    change ((x :: List.firstn j' rest) ++ m :: List.skipn j' rest)
      with (x :: (List.firstn j' rest ++ m :: List.skipn j' rest)).
    cbn [find_first]. rewrite Hx, (IH j' eq_refl Hm). reflexivity.
Qed.

(** The lines of a marked file, marked once more. *)
Lemma spec_marked_lines_twice (lines : list string) (k : nat) :
  closing_index lines = Some k →
  spec_marked_lines
    (List.firstn k lines ++ [marker_line (List.hd "" lines)]
     ++ List.skipn k lines)
  = List.firstn k lines
    ++ [marker_line (List.hd "" lines); marker_line (List.hd "" lines)]
    ++ List.skipn k lines.
Proof.
  destruct lines as [|first rest]; [discriminate|]. cbn [closing_index].
  destruct (find_first _ rest) as [j|] eqn:E; [|discriminate].
  intros [= <-]. cbn [List.hd List.firstn List.skipn].
  set (m := marker_line first).
  change ((first :: List.firstn j rest) ++ [m] ++ List.skipn j rest)
    with (first :: (List.firstn j rest ++ m :: List.skipn j rest)).
  unfold spec_marked_lines. cbn [closing_index List.hd].
  rewrite (find_first_after_insert _ m rest j E)
    by apply marker_is_no_delimiter.
  cbn [option_map]. fold m.
  pose proof (find_first_length _ _ _ E) as Hj.
  assert (Hlen : length (List.firstn j rest ++ [m]) = S j).
  { rewrite length_app, length_take. simpl. lia. }
  change (first :: (List.firstn j rest ++ m :: List.skipn j rest))
    with (first :: (List.firstn j rest ++ [m] ++ List.skipn j rest)).
  cbn [List.firstn List.skipn].
  replace (List.firstn j rest ++ [m] ++ List.skipn j rest)
    with ((List.firstn j rest ++ [m]) ++ List.skipn j rest)
    by (rewrite <- List.app_assoc; reflexivity).
  rewrite (take_app_length' (List.firstn j rest ++ [m]))
    by (symmetry; exact Hlen).
  rewrite (drop_app_length' (List.firstn j rest ++ [m]))
    by (symmetry; exact Hlen).
  cbn [app]. rewrite <- !List.app_assoc. reflexivity.
Qed.

(** [mark_syndicated] does not look for a marker that is already
    there: called again on the file it has marked, it puts a second
    marker line next to the first. *)
Theorem marking_twice_inserts_two_markers
    (item : manifest_item) (w : world) (text : string) (k : nat) :
  files w !! filepath item = Some text →
  fault w = NoFault →
  let lines := Py.readlines (Py.universal_newlines text) in
  closing_index lines = Some k →
  let marker := marker_line (List.hd "" lines) in
  files (mark_syndicated item (mark_syndicated item w).2).2
  = <[filepath item :=
        String.concat ""
          (List.firstn k lines ++ [marker; marker] ++ List.skipn k lines)]>
      (files w).
Proof.
  intros Htext Hfault lines Hk marker.
  assert (Hne : text ≠ "") by (intros ->; discriminate Hk).
  rewrite (mark_syndicated_ok item w text) by assumption. cbn [snd].
  fold lines. set (lines1 := spec_marked_lines lines).
  assert (Hstored : Py.universal_newlines (String.concat "" lines1)
                    = String.concat "" lines1)
    by apply marked_text_is_read_as_stored.
  assert (Hread : Py.readlines (String.concat "" lines1) = lines1).
  { unfold lines1, spec_marked_lines. rewrite Hk.
    apply readlines_concat, lines_ok_insert.
    - apply marker_line_ends.
    - apply readlines_ok.
    - apply closing_index_length in Hk. lia. }
  erewrite (mark_syndicated_ok item _ (String.concat "" lines1)).
  - cbn [snd files]. rewrite insert_insert_eq, Hstored, Hread.
    unfold lines1, spec_marked_lines at 2. rewrite Hk.
    rewrite (spec_marked_lines_twice _ _ Hk). reflexivity.
  - cbn [files]. apply lookup_insert_eq.
  - intros Hempty. rewrite Hempty in Hread. unfold lines1 in Hread.
    unfold spec_marked_lines in Hread. rewrite Hk in Hread.
    destruct (List.firstn k lines); discriminate Hread.
  - reflexivity.
Qed.

Lemma marking_twice_inserts_two_markers_witness :
  files (mark_syndicated sample_item
           (mark_syndicated sample_item (sample_world NoFault)).2).2
  !! "content/post.md"
  = Some ("---" +:+ Py.nl +:+ "title: x" +:+ Py.nl
          +:+ "syndicated: true" +:+ Py.nl +:+ "syndicated: true" +:+ Py.nl
          +:+ "---" +:+ Py.nl +:+ "body" +:+ Py.nl).
Proof.
  rewrite (marking_twice_inserts_two_markers sample_item
             (sample_world NoFault) sample_text 2 eq_refl eq_refl eq_refl).
  apply lookup_insert_eq.
Defined.

(** ** Publishers and odd targets *)

(** Neither publisher ever reports a success: without a client it
    returns [False] and does nothing; with one it raises before it
    reaches the call that would post, so nothing is posted and neither
    the success line nor the failure line is logged. *)
Theorem publishers_never_succeed
    (h : host) (client : bool) (fm : pyval) (url : string) (w : world) :
  (client = false →
   syndicate_to_bluesky h client fm url w = (Ok false, w)
   ∧ syndicate_to_mastodon h client fm url w = (Ok false, w))
  ∧ (client = true →
     (∃ e, syndicate_to_bluesky h client fm url w = (Raise e, w))
     ∧ (∃ e, syndicate_to_mastodon h client fm url w = (Raise e, w)))
  ∧ (syndicate_to_bluesky h client fm url w).1 ≠ Ok true
  ∧ (syndicate_to_mastodon h client fm url w).1 ≠ Ok true.
Proof.
  destruct client.
  - destruct (syndicate_to_bluesky_raises h fm url w) as (e1 & E1).
    destruct (syndicate_to_mastodon_raises h fm url w) as (e2 & E2).
    rewrite E1, E2. split; [discriminate|].
    split; [intros _; eauto|]. split; discriminate.
  - split; [intros _; split; reflexivity|].
    split; [discriminate|]. split; discriminate.
Qed.


